(** * GetDailyStock: the institutional-flow analysis of [stock_workflow.py]

    A shallow embedding of the analysis functions of [src/stock_workflow.py]
    (and, where the two differ, of the older [src/上市上櫃全流程.py]) and the
    properties the specification states about them.

    Conventions of the embedding:
    - a Python [str] is a [string]; each character is read as a code point
      below 256, and Python's comparison of strings is [String.compare];
    - a Python [dict] is a [gmap], a Python [set] a [gset]; a list of
      per-row dicts and a DataFrame are lists of records, in row order;
    - Python integers are [Z]; a double is a [spec_float] of the Standard
      Library at 53 digits (binary64), so the share counts, their division
      by 1000 and Python's [float] on text are rounded as IEEE 754 rounds
      them; the means, deviations and z-scores of the statistics are
      idealised as real numbers ([R]), with the infinities and the NaN that
      a division by zero gives. *)

From Stdlib Require Import ZArith QArith Reals Lra Lia Ascii String List.
From Stdlib Require Import Floats.SpecFloat.
From Stdlib Require DecimalString DecimalZ DecimalPos.
From stdpp Require Import base option list gmap sets strings sorting.

#[local] Set Warnings "-clear-no-such-hyp".

#[local] Close Scope R_scope.
#[local] Close Scope Q_scope.
#[local] Open Scope Z_scope.
#[local] Open Scope string_scope.
#[local] Open Scope list_scope.
#[local] Open Scope nat_scope.
#[local] Open Scope stdpp_scope.

(** ** Python's [str] methods used by the analysis *)

Module Text.

(** [str.isspace] on one character (code points below 256): the ASCII
    controls 9-13 and 28-31, the space, U+0085 and U+00A0. *)
Definition isspace (c : ascii) : bool :=
  let n := nat_of_ascii c in
  ((9 <=? n) && (n <=? 13)) || ((28 <=? n) && (n <=? 32))
  || (n =? 133) || (n =? 160).

(** [str.isdigit] on one character (code points below 256): the ASCII
    digits and the superscripts U+00B2, U+00B3, U+00B9. *)
Definition isdigit_char (c : ascii) : bool :=
  let n := nat_of_ascii c in
  ((48 <=? n) && (n <=? 57)) || (n =? 178) || (n =? 179) || (n =? 185).

Fixpoint all_chars (p : ascii → bool) (s : string) : bool :=
  match s with
  | EmptyString => true
  | String c s' => p c && all_chars p s'
  end.

(** [s.isdigit()]: false on the empty string. *)
Definition isdigit (s : string) : bool :=
  match s with
  | EmptyString => false
  | String _ _ => all_chars isdigit_char s
  end.

(** [s.lstrip()], [s.rstrip()] and [s.strip()] without argument. *)
Fixpoint lstrip (s : string) : string :=
  match s with
  | EmptyString => EmptyString
  | String c s' => if isspace c then lstrip s' else s
  end.

Fixpoint rstrip (s : string) : string :=
  match s with
  | EmptyString => EmptyString
  | String c s' =>
      match rstrip s' with
      | EmptyString => if isspace c then EmptyString else String c EmptyString
      | r => String c r
      end
  end.

Definition strip (s : string) : string := rstrip (lstrip s).

(** [s.replace(old, new)] for a non-empty [old]: the occurrences of [old]
    are found from left to right and do not overlap.  [skip] counts the
    characters of a matched occurrence that are still to be dropped. *)
Fixpoint replace_from (old new : string) (skip : nat) (s : string) : string :=
  match s with
  | EmptyString => EmptyString
  | String c s' =>
      match skip with
      | S k => replace_from old new k s'
      | O =>
          if String.prefix old s
          then new +:+ replace_from old new (String.length old - 1) s'
          else String c (replace_from old new 0 s')
      end
  end.

Definition replace (old new s : string) : string := replace_from old new 0 s.

(** The three texts that [normalize_stock_code] removes: the two
    characters [=] and double quote, the double quote (code point 34)
    and the single quote. *)
Definition dquote : string := String "034" EmptyString.
Definition eq_dquote : string := String "=" dquote.
Definition quote : string := "'".

(** The characters that are neither of the two quotes. *)
Definition unquoted (c : ascii) : bool :=
  negb (Ascii.eqb c "034") && negb (Ascii.eqb c "'").

Fixpoint zeros (n : nat) : string :=
  match n with
  | O => EmptyString
  | S k => String "0" (zeros k)
  end.

(** [s.zfill(width)]: zeros are inserted after a leading sign. *)
Definition zfill (width : nat) (s : string) : string :=
  if (width <=? String.length s)%nat then s
  else
    let fill := zeros (width - String.length s) in
    match s with
    | String c s' =>
        if (Ascii.eqb c "+" || Ascii.eqb c "-")%bool
        then String c (fill +:+ s')
        else fill +:+ s
    | EmptyString => fill
    end.

(** The two steps of [normalize_stock_code] after [strip]: the three
    removals, and the padding of a short digit text. *)
Definition cleaned (t : string) : string :=
  replace quote EmptyString
    (replace dquote EmptyString (replace eq_dquote EmptyString t)).

Definition settle (u : string) : string :=
  if isdigit u && (String.length u <? 4)%nat then zfill 4 u else u.

End Text.

(** ** Doubles *)

(** The doubles of Python and NumPy are the binary64 numbers of IEEE 754,
    in the specification of the Standard Library ([SpecFloat]) with 53
    digits and exponents below 1024; every operation rounds to the nearest
    double, ties to the even mantissa. *)
Module Float64.
#[local] Open Scope Z_scope.

Definition prec : Z := 53.
Definition emax : Z := 1024.
Definition float : Type := spec_float.

(** The double nearest to an integer, ties to the even mantissa: the
    conversion of an [int] or an int64 to a double. *)
Definition of_Z (z : Z) : float := binary_normalize prec emax z 0 false.

Definition div (x y : float) : float := SFdiv prec emax x y.

Definition thousand : float := of_Z 1000.

(** The integer part of a double, [None] for an infinity or a NaN. *)
Definition trunc (x : float) : option Z :=
  match x with
  | S754_zero _ => Some 0
  | S754_finite s m e => Some (cond_Zopp s (Z.shiftl (Z.pos m) e))
  | S754_infinity _ | S754_nan => None
  end.

(** The cast of a double to int64, which is NumPy's [int] on the Linux
    hosts of GitHub Actions, for which [setup_config] is written: the
    integer part; a value out of the range of int64 gives the least int64,
    as the conversion of x86-64 does (C leaves it undefined).  [None] for
    an infinity or a NaN. *)
Definition to_int64 (x : float) : option Z :=
  k ← trunc x;
  Some (if (- 2 ^ 63 <=? k) && (k <? 2 ^ 63) then k else - 2 ^ 63).

(** The double nearest to [digits * 10 ^ exponent], with the sign [neg]:
    one rounding of the exact value. *)
Definition of_decimal (neg : bool) (digits exponent : Z) : float :=
  if 0 <=? exponent then
    match digits * 10 ^ exponent with
    | Z.pos m => binary_round prec emax neg m 0
    | _ => S754_zero neg
    end
  else
    match digits with
    | Z.pos _ =>
        let '(q, e, l) :=
          SFdiv_core_binary prec emax digits 0 (10 ^ (- exponent)) 0 in
        binary_round_aux prec emax neg q e l
    | _ => S754_zero neg
    end.

End Float64.

(** ** Python's [float] on a [str] *)

Module PyFloat.
Import Float64.

Definition is_digit (c : ascii) : bool :=
  let n := nat_of_ascii c in (48 <=? n) && (n <=? 57).

Definition digit_value (c : ascii) : Z := (Z.of_nat (nat_of_ascii c) - 48)%Z.

(** The characters that [float] strips at both ends (code points below
    256): the ASCII controls 9-13 and the space, and U+0085 and U+00A0,
    which are turned into spaces first.  The controls 28-31 are not
    stripped. *)
Definition isspace (c : ascii) : bool :=
  let n := nat_of_ascii c in
  ((9 <=? n) && (n <=? 13)) || (n =? 32) || (n =? 133) || (n =? 160).

Fixpoint lstrip (s : string) : string :=
  match s with
  | EmptyString => EmptyString
  | String c s' => if isspace c then lstrip s' else s
  end.

Fixpoint rstrip (s : string) : string :=
  match s with
  | EmptyString => EmptyString
  | String c s' =>
      match rstrip s' with
      | EmptyString => if isspace c then EmptyString else String c EmptyString
      | r => String c r
      end
  end.

(** An underscore is dropped when it stands between two digits; any other
    underscore is an error.  [prev] is the character before [s]. *)
Fixpoint drop_underscores (prev : ascii) (s : string) : option string :=
  match s with
  | EmptyString => if Ascii.eqb prev "_" then None else Some EmptyString
  | String c s' =>
      if Ascii.eqb c "_" then
        if is_digit prev then drop_underscores c s' else None
      else if Ascii.eqb prev "_" && negb (is_digit c) then None
      else String c <$> drop_underscores c s'
  end.

Definition sign (s : string) : bool * string :=
  match s with
  | String c s' =>
      if Ascii.eqb c "-" then (true, s')
      else if Ascii.eqb c "+" then (false, s')
      else (false, s)
  | EmptyString => (false, s)
  end.

(** A run of digits: the number they continue from [acc], how many they
    are, and the text after them. *)
Fixpoint digits (acc : Z) (count : nat) (s : string) : Z * nat * string :=
  match s with
  | String c s' =>
      if is_digit c then digits (10 * acc + digit_value c) (S count) s'
      else (acc, count, s)
  | EmptyString => (acc, count, s)
  end.

Definition lower (c : ascii) : ascii :=
  let n := nat_of_ascii c in
  if (65 <=? n) && (n <=? 90) then ascii_of_nat (n + 32) else c.

(** The text after the word [w], read without regard to case. *)
Fixpoint word (w s : string) : option string :=
  match w, s with
  | EmptyString, _ => Some s
  | String a w', String c s' =>
      if Ascii.eqb (lower c) a then word w' s' else None
  | String _ _, EmptyString => None
  end.

Definition parse_inf_or_nan (s : string) : option (float * string) :=
  let '(neg, s) := sign s in
  match word "inf" s with
  | Some rest => Some (S754_infinity neg, default rest (word "inity" rest))
  | None =>
      match word "nan" s with
      | Some rest => Some (S754_nan, rest)
      | None => None
      end
  end.

(** An exponent is read when [e] is followed by at least one digit, after
    an optional sign; otherwise the text is left where it is. *)
Definition exponent (s : string) : Z * string :=
  match s with
  | String c s' =>
      if Ascii.eqb c "e" || Ascii.eqb c "E" then
        let '(neg, s'') := sign s' in
        let '(e, count, rest) := digits 0 0 s'' in
        if (count =? 0)%nat then (0%Z, s)
        else ((if neg then - e else e)%Z, rest)
      else (0%Z, s)
  | EmptyString => (0%Z, s)
  end.

(** The longest number at the start of the text and the text after it:
    a sign, digits with at most one point and at least one digit, and an
    exponent; or an infinity or a NaN.  [None] when the text starts with
    none of these.  The limits on texts of more than 10^9 characters are
    left out. *)
Definition strtod (s : string) : option (float * string) :=
  let '(neg, s1) := sign s in
  let '(whole, n_whole, s2) := digits 0 0 s1 in
  let '(mantissa, n_frac, s3) :=
    match s2 with
    | String c s2' =>
        if Ascii.eqb c "." then digits whole 0 s2' else (whole, 0, s2)
    | EmptyString => (whole, 0, s2)
    end in
  if (n_whole + n_frac =? 0)%nat then parse_inf_or_nan s
  else
    let '(e, rest) := exponent s3 in
    Some (of_decimal neg mantissa (e - Z.of_nat n_frac), rest).

(** [float(s)]: [None] for a [ValueError].  The whole text must be one
    number between stripped ends. *)
Definition float_of_str (s : string) : option float :=
  s ← drop_underscores "000" s;
  match strtod (rstrip (lstrip s)) with
  | Some (x, EmptyString) => Some x
  | _ => None
  end.

(** [float(z)] for an integer: [None] for the [OverflowError] of an integer
    too large for a double. *)
Definition float_of_int (z : Z) : option float :=
  match of_Z z with
  | S754_infinity _ => None
  | x => Some x
  end.

End PyFloat.

(** ** Cells of the input tables *)

(** A cell that holds a security code: missing ([pd.isna]) or text.  A code
    that pandas read as a number enters as the text [str] gives it. *)
Inductive cell : Type :=
  | NaN
  | Str (s : string).

(** [normalize_stock_code] (stock_workflow.py, lines 808-822). *)
Definition normalize_stock_code (code : cell) : string :=
  match code with
  | NaN => EmptyString
  | Str s =>
      if String.eqb s EmptyString then EmptyString
      else
        let code_str := Text.strip s in
        let code_str :=
          Text.replace Text.quote EmptyString
            (Text.replace Text.dquote EmptyString
               (Text.replace Text.eq_dquote EmptyString code_str)) in
        if Text.isdigit code_str && (String.length code_str <? 4)%nat
        then Text.zfill 4 code_str
        else code_str
  end.

(** A cell that holds a quantity, as [row.get] gives it: text, an integer
    (an [int] or an int64) or a double, the NaN of a missing cell
    included. *)
Inductive value : Type :=
  | VStr (s : string)
  | VInt (z : Z)
  | VFloat (x : Float64.float).

(** [int(num_value / 1000)]: the quotient of two doubles, cut towards zero;
    [None] where [int] raises, on an infinity or a NaN. *)
Definition lots_of (num_value : Float64.float) : option Z :=
  Float64.trunc (Float64.div num_value Float64.thousand).

(** [shares_to_lots] (stock_workflow.py, lines 826-839); every exception
    is caught and gives 0. *)
Definition shares_to_lots (v : value) : Z :=
  match v with
  | VFloat S754_nan => 0
  | VStr s =>
      if String.eqb s EmptyString then 0
      else
        match PyFloat.float_of_str (Text.replace "," EmptyString s) with
        | Some num_value => default 0%Z (lots_of num_value)
        | None => 0
        end
  | VInt z =>
      match PyFloat.float_of_int z with
      | Some num_value => default 0%Z (lots_of num_value)
      | None => 0
      end
  | VFloat num_value => default 0%Z (lots_of num_value)
  end.

(** A cell of the share column after [pd.to_numeric]: an integer, or a
    double, the NaN of a text that is no number included. *)
Inductive number : Type :=
  | Int (z : Z)
  | Float (x : Float64.float).

(** Line 1139, [(shares / 1000).fillna(0).astype(int)], on one cell: the
    count is divided as a double, a NaN gives 0, and the quotient is cast
    to int64.  [None] where [astype] raises, on an infinity. *)
Definition lots_cell (shares : number) : option Z :=
  let x := match shares with Int z => Float64.of_Z z | Float x => x end in
  match Float64.div x Float64.thousand with
  | S754_nan => Some 0%Z
  | quotient => Float64.to_int64 quotient
  end.

(** ** Tables *)

(** A row of a day's file as [pd.read_csv] and [pd.to_numeric] give it. *)
Record raw_row : Type := RawRow {
  raw_code : cell;
  raw_name : string;
  raw_shares : number
}.

(** A row of the frame [df] once the code is normalised and the lots
    column is added. *)
Record row : Type := Row {
  r_code : string;
  r_name : string;
  r_lots : Z
}.

(** A day's file: its date (the file name without [.csv]) and its rows,
    [None] when the file cannot be read or lacks the share column. *)
Record day_file : Type := DayFile {
  file_date : string;
  file_rows : option (list raw_row)
}.

(** An item of [buy_top20_tracker] and [sell_top20_tracker]. *)
Record entry : Type := Entry {
  e_code : string;
  e_name : string;
  e_date : string;
  e_lots : Z
}.

Inductive category : Type := Buy | Sell | EtfBuy | EtfSell.

(** A frame appended to [daily_buy_sell_data] or [etf_daily_data]; the rank
    of a row is its position.  The two price columns are left out. *)
Record ranking : Type := Ranking {
  rk_date : string;
  rk_category : category;
  rk_rows : list row
}.

#[global] Instance row_eq_dec : EqDecision row.
Proof. solve_decision. Defined.
#[global] Instance entry_eq_dec : EqDecision entry.
Proof. solve_decision. Defined.

(** ** The pandas operations *)

Module Frame.

Section Sorting.
Context {A : Type}.
Variable le : A → A → bool.

Fixpoint insert_by (x : A) (l : list A) : list A :=
  match l with
  | [] => [x]
  | y :: l' => if le x y then x :: l else y :: insert_by x l'
  end.

(** A stable sort: rows that [le] does not separate keep their order. *)
Definition stable_sort (l : list A) : list A := foldr insert_by [] l.

End Sorting.

Definition descending {A} (key : A → Z) (x y : A) : bool := (key y <=? key x)%Z.
Definition ascending {A} (key : A → Z) (x y : A) : bool := (key x <=? key y)%Z.

(** The order of two keys in a column sorted upwards or downwards. *)
Definition in_order (asc : bool) (a b : Z) : Prop :=
  if asc then (a ≤ b)%Z else (b ≤ a)%Z.

(** [df.sort_values(col, ascending=...)].  pandas does not fix the order of
    rows with equal keys; the embedding keeps them in frame order. *)
Definition sort_values {A} (key : A → Z) (asc : bool) (df : list A) : list A :=
  stable_sort (if asc then ascending key else descending key) df.

(** [df.nlargest(n, col)] and [df.nsmallest(n, col)] with the default
    [keep='first'], as pandas documents them: the first [n] rows in
    descending (ascending) order of the column, the first occurrences
    first among rows with equal values (pandas orders the selected rows
    with a stable sort, [kind='mergesort']); no row for [n <= 0]. *)
Definition nlargest {A} (n : Z) (key : A → Z) (df : list A) : list A :=
  take (Z.to_nat n) (stable_sort (descending key) df).

Definition nsmallest {A} (n : Z) (key : A → Z) (df : list A) : list A :=
  take (Z.to_nat n) (stable_sort (ascending key) df).

(** [df.head(n)]: the first [n] rows, all but the last [-n] for [n < 0]. *)
Definition head {A} (n : Z) (df : list A) : list A :=
  if (0 <=? n)%Z then take (Z.to_nat n) df
  else take (length df - Z.to_nat (- n)) df.

End Frame.

(** [sorted(xs, reverse=True)] on strings. *)
Definition sorted_reverse (xs : list string) : list string :=
  Frame.stable_sort (λ a b, String.leb b a) xs.

(** [sorted(xs)] on strings. *)
Definition sorted (xs : list string) : list string :=
  Frame.stable_sort String.leb xs.

(** [is_allowed_stock] (lines 980-985): the code is normalised once more. *)
Definition is_allowed_stock (stock_code : string)
    (allowed_stock_codes : option (gset string)) : bool :=
  match allowed_stock_codes with
  | None => true
  | Some allowed => bool_decide (normalize_stock_code (Str stock_code) ∈ allowed)
  end.

(** [get_stock_sector] (lines 989-992). *)
Definition get_stock_sector (stock_code : string)
    (stock_sector_map : gmap string string) : string :=
  default EmptyString (stock_sector_map !! normalize_stock_code (Str stock_code)).

(** ** [process_shares_files] (stock_workflow.py, lines 1085-1313) *)

(** The tables the function fills.  [all_data], the price columns and the
    two counters of [statistics] are left out: no other table reads them. *)
Record tables : Type := Tables {
  daily_buy_sell_data : list ranking;
  etf_daily_data : list ranking;
  buy_top20_tracker : list entry;
  sell_top20_tracker : list entry;
  daily_buy_stocks : gmap string (gset string);
  daily_sell_stocks : gmap string (gset string);
  daily_all_stocks : gmap string (gmap string Z);
  all_historical_data : gmap string (list (string * Z))
}.

Definition no_tables : tables := Tables [] [] [] [] ∅ ∅ ∅ ∅.

(** Lines 1122-1139: the code column is normalised, the rows are filtered by
    the allow-list, and the lots column is the share count divided by 1000,
    with 0 for a missing count.  [None] when the cast of the column raises:
    a kept row holds an infinite count. *)
Definition load_frame (allowed_stock_codes : option (gset string))
    (rows : list raw_row) : option (list row) :=
  let normalised :=
    (λ r, (normalize_stock_code (raw_code r), r)) <$> rows in
  let kept :=
    match allowed_stock_codes with
    | None => normalised
    | Some allowed => filter (λ cr, cr.1 ∈ allowed) normalised
    end in
  mapM (λ cr, Row cr.1 (raw_name cr.2) <$> lots_cell (raw_shares cr.2)) kept.

(** Lines 1143-1152, one turn of the loop over the rows of [df]: the day's
    map is written at the code, and the pair is appended to the history. *)
Definition record_row (date : string) (allowed_stock_codes : option (gset string))
    (acc : gmap string Z * gmap string (list (string * Z))) (r : row)
    : gmap string Z * gmap string (list (string * Z)) :=
  let stock_code := normalize_stock_code (Str (r_code r)) in
  if is_allowed_stock stock_code allowed_stock_codes then
    (<[stock_code := r_lots r]> acc.1,
     <[stock_code := default [] (acc.2 !! stock_code) ++ [(date, r_lots r)]]> acc.2)
  else acc.

Definition buy_rows (df : list row) : list row := filter (λ r, (0 < r_lots r)%Z) df.
Definition sell_rows (df : list row) : list row := filter (λ r, (r_lots r < 0)%Z) df.

Definition track (date : string) (r : row) : entry :=
  Entry (normalize_stock_code (Str (r_code r))) (r_name r) date (r_lots r).

Definition codes (df : list row) : gset string := list_to_set (r_code <$> df).

(** Lines 1161-1199. *)
Definition rank_buy (date : string) (top_buy_count : Z) (df : list row)
    (t : tables) : tables :=
  let buy_top := Frame.nlargest top_buy_count r_lots (buy_rows df) in
  if (0 <? length buy_top)%nat then
    let buy_top20 := Frame.nlargest 20 r_lots (buy_rows df) in
    Tables (daily_buy_sell_data t ++ [Ranking date Buy buy_top])
           (etf_daily_data t)
           (buy_top20_tracker t ++ (track date <$> buy_top20))
           (sell_top20_tracker t)
           (<[date := codes buy_top20]> (daily_buy_stocks t))
           (daily_sell_stocks t) (daily_all_stocks t) (all_historical_data t)
  else
    Tables (daily_buy_sell_data t) (etf_daily_data t)
           (buy_top20_tracker t) (sell_top20_tracker t)
           (<[date := ∅]> (daily_buy_stocks t))
           (daily_sell_stocks t) (daily_all_stocks t) (all_historical_data t).

(** Lines 1202-1240. *)
Definition rank_sell (date : string) (top_sell_count : Z) (df : list row)
    (t : tables) : tables :=
  let sell_top := Frame.nsmallest top_sell_count r_lots (sell_rows df) in
  if (0 <? length sell_top)%nat then
    let sell_top20 := Frame.nsmallest 20 r_lots (sell_rows df) in
    Tables (daily_buy_sell_data t ++ [Ranking date Sell sell_top])
           (etf_daily_data t)
           (buy_top20_tracker t)
           (sell_top20_tracker t ++ (track date <$> sell_top20))
           (daily_buy_stocks t)
           (<[date := codes sell_top20]> (daily_sell_stocks t))
           (daily_all_stocks t) (all_historical_data t)
  else
    Tables (daily_buy_sell_data t) (etf_daily_data t)
           (buy_top20_tracker t) (sell_top20_tracker t)
           (daily_buy_stocks t)
           (<[date := ∅]> (daily_sell_stocks t))
           (daily_all_stocks t) (all_historical_data t).

(** Lines 1243-1287. *)
Definition rank_etf (date : string) (etf_stock_codes : gset string)
    (df : list row) (t : tables) : tables :=
  if (0 <? size etf_stock_codes)%nat then
    let etf_df := filter (λ r, r_code r ∈ etf_stock_codes) df in
    let etf_buy_top10 := Frame.nlargest 10 r_lots (buy_rows etf_df) in
    let etf_sell_top10 := Frame.nsmallest 10 r_lots (sell_rows etf_df) in
    Tables (daily_buy_sell_data t)
           (etf_daily_data t
              ++ (if (0 <? length etf_buy_top10)%nat
                  then [Ranking date EtfBuy etf_buy_top10] else [])
              ++ (if (0 <? length etf_sell_top10)%nat
                  then [Ranking date EtfSell etf_sell_top10] else []))
           (buy_top20_tracker t) (sell_top20_tracker t)
           (daily_buy_stocks t) (daily_sell_stocks t)
           (daily_all_stocks t) (all_historical_data t)
  else t.

(** Lines 1141-1152: the day's map starts empty and the rows are recorded. *)
Definition record_day (date : string) (allowed_stock_codes : option (gset string))
    (df : list row) (t : tables) : tables :=
  let acc := foldl (record_row date allowed_stock_codes)
                   (∅, all_historical_data t) df in
  Tables (daily_buy_sell_data t) (etf_daily_data t)
         (buy_top20_tracker t) (sell_top20_tracker t)
         (daily_buy_stocks t) (daily_sell_stocks t)
         (<[date := acc.1]> (daily_all_stocks t)) acc.2.

(** The frame of a day's file, [None] when the file cannot be used. *)
Definition frame_of (allowed_stock_codes : option (gset string))
    (f : day_file) : option (list row) :=
  file_rows f ≫= load_frame allowed_stock_codes.

(** One turn of the loop over [latest_files] (lines 1118-1294).
    [first_five] holds the dates of [latest_files[:5]]: files are told apart
    by their date.  A file that cannot be used leaves the tables as they
    are: the exception is caught before anything is written. *)
Definition process_file (allowed_stock_codes : option (gset string))
    (etf_stock_codes : gset string) (top_buy_count top_sell_count : Z)
    (first_five : list string) (t : tables) (f : day_file) : tables :=
  match frame_of allowed_stock_codes f with
  | None => t
  | Some df =>
      let t := record_day (file_date f) allowed_stock_codes df t in
      if bool_decide (file_date f ∈ first_five) then
        rank_etf (file_date f) etf_stock_codes df
          (rank_sell (file_date f) top_sell_count df
             (rank_buy (file_date f) top_buy_count df t))
      else t
  end.

Definition process_shares_files (latest_files : list day_file)
    (allowed_stock_codes : option (gset string)) (etf_stock_codes : gset string)
    (top_buy_count top_sell_count : Z) : tables :=
  foldl (process_file allowed_stock_codes etf_stock_codes
           top_buy_count top_sell_count (file_date <$> take 5 latest_files))
        no_tables latest_files.

(** ** [calculate_stock_statistics] (stock_workflow.py, lines 1434-1470) *)

(** A double of the statistics: a real number, an infinity or the NaN. *)
Inductive np_float : Type :=
  | Finite (x : R)
  | Infinite (negative : bool)
  | NotANumber.

(** The division of two NumPy doubles: a zero divisor raises nothing (a
    warning is printed) and gives an infinity, or the NaN for 0 / 0.  The
    divisor is a deviation, a zero with the sign plus. *)
Definition np_divide (x y : R) : np_float :=
  if Req_dec_T y 0%R then
    if Req_dec_T x 0%R then NotANumber
    else Infinite (if Rlt_dec x 0%R then true else false)
  else Finite (x / y)%R.

Definition np_abs (x : np_float) : np_float :=
  match x with
  | Finite x => Finite (Rabs x)
  | Infinite _ => Infinite false
  | NotANumber => NotANumber
  end.

(** [x >= threshold]: false for the NaN. *)
Definition np_ge (x : np_float) (threshold : R) : bool :=
  match x with
  | Finite x => if Rle_dec threshold x then true else false
  | Infinite negative => negb negative
  | NotANumber => false
  end.

(** An entry of [stock_statistics]. *)
Record statistics : Type := Statistics {
  mean_value : R;
  std_value : R;
  latest_value : Z;
  z_score : np_float;
  anomaly : bool
}.

Definition Rsum (xs : list R) : R := foldr Rplus 0%R xs.

(** [np.mean] and [np.std] (the population deviation) of a list of integers. *)
Definition np_mean (xs : list Z) : R := (Rsum (IZR <$> xs) / INR (length xs))%R.

Definition np_std (xs : list Z) : R :=
  sqrt (Rsum ((λ x, (IZR x - np_mean xs) * (IZR x - np_mean xs))%R <$> xs)
        / INR (length xs))%R.

(** [sorted(date_values, key=lambda x: x[0], reverse=True)]. *)
Definition sort_by_date_desc (date_values : list (string * Z)) : list (string * Z) :=
  Frame.stable_sort (λ x y, String.leb y.1 x.1) date_values.

(** The body of the loop, for one security: [None] when no entry is
    written. *)
Definition stock_entry (sigma_threshold : R) (date_values : list (string * Z))
    : option statistics :=
  if (30 <=? length date_values)%nat then
    let sorted_values := sort_by_date_desc date_values in
    let latest := match sorted_values with v :: _ => v.2 | [] => 0%Z end in
    let historical_values := snd <$> take 60 (drop 1 sorted_values) in
    if (30 <=? length historical_values)%nat then
      let mean := np_mean historical_values in
      let std := np_std historical_values in
      let z :=
        if Rlt_dec 0 std then np_abs (np_divide (IZR latest - mean) std)
        else Finite 0 in
      Some (Statistics mean std latest z (np_ge z sigma_threshold))
    else None
  else None.

Definition calculate_stock_statistics
    (all_historical_data : gmap string (list (string * Z)))
    (sigma_threshold : R) : gmap string statistics :=
  omap (stock_entry sigma_threshold) all_historical_data.

(** ** [analyze_new_entries_and_observables] (lines 1474-1605) *)

(** The parts of a reason text, which the source joins with [+]. *)
Inductive reason : Type :=
  | AnomalousMove      (* 異常波動(zσ) *)
  | ConsecutiveBuy     (* 連續買超 *)
  | ConsecutiveSell.   (* 連續賣超 *)

(** A value of [observable_buy_stocks] and [observable_sell_stocks]. *)
Record observation : Type := Observation {
  ob_reasons : list reason;
  ob_z_score : np_float;
  ob_mean : R;
  ob_std : R
}.

Record analysis : Type := Analysis {
  new_buy_stocks : gset string;
  new_sell_stocks : gset string;
  observable_buy_stocks : gmap string observation;
  observable_sell_stocks : gmap string observation;
  latest_date : option string;
  latest_buy_stocks_n : gset string;
  latest_sell_stocks_n : gset string
}.

(** Lines 1523-1529: the union of the sets recorded on the given dates. *)
Definition previous_stocks (daily : gmap string (gset string))
    (dates : list string) : gset string :=
  foldl (λ acc date, acc ∪ default ∅ (daily !! date)) ∅ dates.

(** Lines 1550-1554 and 1574-1578: the number of the given dates on which
    the day's map holds the code with a value that satisfies [side]. *)
Definition on_side (side : Z → bool) (daily_all : gmap string (gmap string Z))
    (stock_code date : string) : bool :=
  match daily_all !! date with
  | Some day =>
      match day !! stock_code with
      | Some v => side v
      | None => false
      end
  | None => false
  end.

Definition count_days (side : Z → bool) (daily_all : gmap string (gmap string Z))
    (dates : list string) (stock_code : string) : nat :=
  length (filter (λ date, on_side side daily_all stock_code date = true) dates).

(** Lines 1538-1559 and 1562-1583, the body of the loop for one code. *)
Definition observe (side : Z → bool) (persistent : reason)
    (daily_all : gmap string (gmap string Z))
    (stock_statistics : gmap string statistics)
    (dates : list string) (stock_code : string) : option observation :=
  let flagged :=
    match stock_statistics !! stock_code with
    | Some st => if anomaly st then Some st else None
    | None => None
    end in
  let reasons :=
    (match flagged with Some _ => [AnomalousMove] | None => [] end)
    ++ (if (3 <=? count_days side daily_all dates stock_code)%nat
        then [persistent] else []) in
  match reasons with
  | [] => None
  | _ =>
      Some (Observation reasons
              (from_option z_score (Finite 0) flagged)
              (from_option mean_value 0%R flagged)
              (from_option std_value 0%R flagged))
  end.

Definition observables (side : Z → bool) (persistent : reason)
    (daily_all : gmap string (gmap string Z))
    (stock_statistics : gmap string statistics)
    (dates : list string) (stocks : gset string) : gmap string observation :=
  map_imap (λ stock_code _, observe side persistent daily_all stock_statistics
                              dates stock_code)
           (gset_to_gmap () stocks).

(** [None] when the cast of the lots column of the latest file raises
    (line 1513), which nothing catches here. *)
Definition analyze_new_entries_and_observables (latest_file : list raw_row)
    (daily_buy_stocks daily_sell_stocks : gmap string (gset string))
    (daily_all_stocks : gmap string (gmap string Z))
    (stock_statistics : gmap string statistics)
    (allowed_stock_codes : option (gset string))
    (top_buy_count top_sell_count : Z) : option analysis :=
  let sorted_dates := sorted_reverse (elements (dom daily_buy_stocks)) in
  match sorted_dates with
  | latest :: ((_ :: _) as previous_dates) =>
      latest_df ← load_frame allowed_stock_codes latest_file;
      let buy_top_n := Frame.nlargest top_buy_count r_lots (buy_rows latest_df) in
      let sell_top_n := Frame.nsmallest top_sell_count r_lots (sell_rows latest_df) in
      let previous_buy_stocks := previous_stocks daily_buy_stocks (take 4 previous_dates) in
      let previous_sell_stocks := previous_stocks daily_sell_stocks (take 4 previous_dates) in
      let latest_buy_stocks := default ∅ (daily_buy_stocks !! latest) in
      let latest_sell_stocks := default ∅ (daily_sell_stocks !! latest) in
      Some (Analysis (latest_buy_stocks ∖ previous_buy_stocks)
               (latest_sell_stocks ∖ previous_sell_stocks)
               (observables (λ v, (0 <? v)%Z) ConsecutiveBuy daily_all_stocks
                  stock_statistics (take 4 previous_dates) (codes buy_top_n))
               (observables (λ v, (v <? 0)%Z) ConsecutiveSell daily_all_stocks
                  stock_statistics (take 4 previous_dates) (codes sell_top_n))
               (Some latest) (codes buy_top_n) (codes sell_top_n))
  | _ => Some (Analysis ∅ ∅ ∅ ∅ None ∅ ∅)
  end.

(** ** [aggregate_analysis] (stock_workflow.py, lines 1792-1973) *)

(** [format_date_short] (lines 843-851). *)
Fixpoint split_on (sep : ascii) (s : string) : list string :=
  match s with
  | EmptyString => [EmptyString]
  | String c s' =>
      if Ascii.eqb c sep then EmptyString :: split_on sep s'
      else
        match split_on sep s' with
        | part :: parts => String c part :: parts
        | [] => [String c EmptyString]
        end
  end.

Definition format_date_short (date_str : string) : string :=
  match split_on "-" date_str with
  | [_; _; day] => day
  | _ => date_str
  end.

(** A row of [summary]: a group of [all_df] by code and name. *)
Record summary_row : Type := SummaryRow {
  s_code : string;
  s_name : string;
  s_sum : Z;
  s_count : nat
}.

(** The order of the group keys: by code, then by name. *)
Definition key_compare (k1 k2 : string * string) : comparison :=
  match String.compare k1.1 k2.1 with
  | Eq => String.compare k1.2 k2.2
  | c => c
  end.

Fixpoint add_to_group (e : entry) (summary : list summary_row) : list summary_row :=
  match summary with
  | [] => [SummaryRow (e_code e) (e_name e) (e_lots e) 1]
  | g :: summary' =>
      match key_compare (e_code e, e_name e) (s_code g, s_name g) with
      | Eq => SummaryRow (s_code g) (s_name g) (s_sum g + e_lots e) (S (s_count g))
                :: summary'
      | Lt => SummaryRow (e_code e) (e_name e) (e_lots e) 1 :: summary
      | Gt => g :: add_to_group e summary'
      end
  end.

(** [all_df.groupby([code, name]).agg(sum, count).reset_index()]: one row
    for each key, in the order of the keys. *)
Definition groupby_sum_count (all_tracker : list entry) : list summary_row :=
  foldl (λ summary e, add_to_group e summary) [] all_tracker.

(** A row of [buy_stocks] and [sell_stocks]: the summary row, the sector
    and the note that the code is on both sides. *)
Record leader : Type := Leader {
  l_code : string;
  l_name : string;
  l_sum : Z;
  l_count : nat;
  l_sector : string;
  l_on_both_sides : bool
}.

Inductive status : Type := OnBuy | OnSell | Neutral.

(** A row of [both_stocks_df]. *)
Record detail : Type := Detail {
  d_code : string;
  d_name : string;
  d_sector : string;
  d_buy_count : nat;
  d_buy_dates : string;
  d_buy_sum : Z;
  d_sell_count : nat;
  d_sell_dates : string;
  d_sell_sum : Z;
  d_net : Z;
  d_date_status : list (status * string)
}.

(** Lines 1823-1836: the dates of a tracker's items, by code, in the order
    of the items. *)
Definition dates_by_stock (tracker : list entry) : gmap string (list string) :=
  foldl (λ m item,
           <[e_code item := default [] (m !! e_code item) ++ [e_date item]]> m)
        ∅ tracker.

Definition Zsum (xs : list Z) : Z := foldr Z.add 0%Z xs.

Definition annotate (stock_sector_map : gmap string string)
    (both_stocks_set : gset string) (g : summary_row) : leader :=
  Leader (s_code g) (s_name g) (s_sum g) (s_count g)
         (get_stock_sector (s_code g) stock_sector_map)
         (bool_decide (s_code g ∈ both_stocks_set)).

(** Lines 1921-1961, the body of the loop for one code. *)
Definition describe (all_tracker : list entry)
    (buy_dates_by_stock sell_dates_by_stock : gmap string (list string))
    (stock_sector_map : gmap string string) (all_available_dates : list string)
    (stock_code : string) : detail :=
  let stock_all_data := filter (λ e, e_code e = stock_code) all_tracker in
  let buy_dates := default [] (buy_dates_by_stock !! stock_code) in
  let sell_dates := default [] (sell_dates_by_stock !! stock_code) in
  Detail stock_code
         (from_option e_name EmptyString (stock_all_data !! 0%nat))
         (get_stock_sector stock_code stock_sector_map)
         (length buy_dates)
         (String.concat ", " (format_date_short <$> sorted buy_dates))
         (Zsum (e_lots <$> filter (λ e, (0 < e_lots e)%Z) stock_all_data))
         (length sell_dates)
         (String.concat ", " (format_date_short <$> sorted sell_dates))
         (Zsum (e_lots <$> filter (λ e, (e_lots e < 0)%Z) stock_all_data))
         (Zsum (e_lots <$> stock_all_data))
         ((λ date,
             (if bool_decide (date ∈ buy_dates) then OnBuy
              else if bool_decide (date ∈ sell_dates) then OnSell
              else Neutral,
              format_date_short date))
            <$> take 5 all_available_dates).

(** What a call gives: the tuple it returns, or the [TypeError] of the
    comparison of [None] with 0. *)
Inductive outcome (A : Type) : Type :=
  | Raises_TypeError
  | Returns (a : A).
Arguments Raises_TypeError {A}.
Arguments Returns {A} a.

Record aggregate : Type := Aggregate {
  buy_stocks : option (list leader);
  sell_stocks : option (list leader);
  both_stocks_set : gset string;
  both_stocks_df : option (list detail)
}.

Definition aggregate_analysis (buy_top20_tracker sell_top20_tracker : list entry)
    (stock_sector_map : gmap string string)
    (aggregate_threshold : option Z) (show_top_n : option Z) : outcome aggregate :=
  if bool_decide (buy_top20_tracker = []) || bool_decide (sell_top20_tracker = [])
  then Returns (Aggregate None None ∅ None)
  else
    let all_tracker := buy_top20_tracker ++ sell_top20_tracker in
    let summary := groupby_sum_count all_tracker in
    let buy_summary := filter (λ g, (0 < s_sum g)%Z) summary in
    let sell_summary := filter (λ g, (s_sum g < 0)%Z) summary in
    let buy_dates_by_stock := dates_by_stock buy_top20_tracker in
    let sell_dates_by_stock := dates_by_stock sell_top20_tracker in
    let both := dom buy_dates_by_stock ∩ dom sell_dates_by_stock in
    let both_df :=
      if (0 <? size both)%nat then
        let all_available_dates :=
          sorted_reverse (elements (list_to_set (C := gset string)
                                      (e_date <$> all_tracker))) in
        Some (Frame.sort_values d_net false
                (describe all_tracker buy_dates_by_stock sell_dates_by_stock
                   stock_sector_map all_available_dates <$> elements both))
      else None in
    match show_top_n, aggregate_threshold with
    | Some n, _ =>
        Returns (Aggregate
          (Some (annotate stock_sector_map both
                   <$> Frame.head n (Frame.sort_values s_sum false buy_summary)))
          (Some (annotate stock_sector_map both
                   <$> Frame.head n (Frame.sort_values s_sum true sell_summary)))
          both both_df)
    | None, Some threshold =>
        Returns (Aggregate
          (Some (annotate stock_sector_map both
                   <$> Frame.sort_values s_sum false
                         (filter (λ g, (threshold ≤ s_sum g)%Z) buy_summary)))
          (Some (annotate stock_sector_map both
                   <$> Frame.sort_values s_sum true
                         (filter (λ g, (s_sum g ≤ - threshold)%Z) sell_summary)))
          both both_df)
    | None, None => Raises_TypeError
    end.

(** ** The older script, [上市上櫃全流程.py] *)

Module Legacy.

(** There the trackers are dicts from a code to the dates on which it was
    in a day's first twenty: lists of pairs, in the order of insertion. *)
Record count_row : Type := CountRow {
  c_code : string;
  c_sector : string;
  c_count : nat
}.

Record both_row : Type := BothRow {
  b_code : string;
  b_sector : string;
  b_buy_count : nat;
  b_sell_count : nat
}.

Record aggregate : Type := Aggregate {
  buy_stocks : list count_row;
  sell_stocks : list count_row;
  both_stocks_set : gset string;
  both_stocks_df : list both_row
}.

Section Aggregate.

(** The sector written for a code the map does not hold (未知). *)
Variable unknown : string.

(** Lines 817-836 and 838-856. *)
Definition leaderboard (tracker : list (string * list string))
    (stock_sector_map : gmap string string) (show_top_n : option Z)
    : list count_row :=
  let rows :=
    (λ kv, CountRow kv.1 (default unknown (stock_sector_map !! kv.1))
                    (length kv.2)) <$> tracker in
  let rows := Frame.sort_values (λ r, Z.of_nat (c_count r)) false rows in
  match show_top_n with
  | Some n => if (n =? 0)%Z then rows else Frame.head n rows
  | None => rows
  end.

Definition count_of (rows : list count_row) (stock_code : string) : nat :=
  from_option c_count 0%nat (filter (λ r, c_code r = stock_code) rows !! 0%nat).

(** [aggregate_analysis] (lines 813-865). *)
Definition aggregate_analysis (buy_top20_tracker sell_top20_tracker : list (string * list string))
    (stock_sector_map : gmap string string)
    (aggregate_threshold : option Z) (show_top_n : option Z) : aggregate :=
  let buy := leaderboard buy_top20_tracker stock_sector_map show_top_n in
  let sell := leaderboard sell_top20_tracker stock_sector_map show_top_n in
  let both : gset string :=
    if (0 <? length buy)%nat && (0 <? length sell)%nat
    then list_to_set (c_code <$> buy) ∩ list_to_set (c_code <$> sell)
    else ∅ in
  Aggregate buy sell both
    (Frame.sort_values (λ r, Z.of_nat (b_buy_count r)) false
       ((λ stock_code,
           BothRow stock_code (default unknown (stock_sector_map !! stock_code))
                   (count_of buy stock_code) (count_of sell stock_code))
          <$> elements both)).

End Aggregate.

End Legacy.

(** ** Sample data *)

(** A history of 31 days, the latest first as the files are read: 900 lots
    on the last day after thirty days of 5 lots. *)
Definition flat_history : list (string * Z) :=
  [("2024-01-31", 900%Z);
   ("2024-01-30", 5%Z);
   ("2024-01-29", 5%Z);
   ("2024-01-28", 5%Z);
   ("2024-01-27", 5%Z);
   ("2024-01-26", 5%Z);
   ("2024-01-25", 5%Z);
   ("2024-01-24", 5%Z);
   ("2024-01-23", 5%Z);
   ("2024-01-22", 5%Z);
   ("2024-01-21", 5%Z);
   ("2024-01-20", 5%Z);
   ("2024-01-19", 5%Z);
   ("2024-01-18", 5%Z);
   ("2024-01-17", 5%Z);
   ("2024-01-16", 5%Z);
   ("2024-01-15", 5%Z);
   ("2024-01-14", 5%Z);
   ("2024-01-13", 5%Z);
   ("2024-01-12", 5%Z);
   ("2024-01-11", 5%Z);
   ("2024-01-10", 5%Z);
   ("2024-01-09", 5%Z);
   ("2024-01-08", 5%Z);
   ("2024-01-07", 5%Z);
   ("2024-01-06", 5%Z);
   ("2024-01-05", 5%Z);
   ("2024-01-04", 5%Z);
   ("2024-01-03", 5%Z);
   ("2024-01-02", 5%Z);
   ("2024-01-01", 5%Z)].

(** Five days of files, the latest first.  Twenty securities are bought
    100000 lots each on every day; the security 56 is bought 500 lots on
    the first four days, which keeps it out of the first twenty, and
    900000 lots on the last day. *)
Definition crowd : list raw_row :=
  (λ c, RawRow (Str c) c (Int 100000000))
    <$> ["1101"; "1102"; "1103"; "1104"; "1105"; "1106"; "1107"; "1108"; "1109"; "1110"; "1111"; "1112"; "1113"; "1114"; "1115"; "1116"; "1117"; "1118"; "1119"; "1120"].

Definition quiet_rows : list raw_row :=
  crowd ++ [RawRow (Str "56") "ETF" (Int 500000)].

Definition busy_rows : list raw_row :=
  RawRow (Str "56") "ETF" (Int 900000000) :: crowd.

Definition five_days : list day_file :=
  [DayFile "2024-01-05" (Some busy_rows);
   DayFile "2024-01-04" (Some quiet_rows);
   DayFile "2024-01-03" (Some quiet_rows);
   DayFile "2024-01-02" (Some quiet_rows);
   DayFile "2024-01-01" (Some quiet_rows)].

(** The tables of the five days, and the frame of the latest of them. *)
Definition five_days_tables : tables :=
  process_shares_files five_days None ∅ 100 50.

Definition busy_frame : list row :=
  Row "0056" "ETF" 900000
    :: ((λ c, Row c c 100000)
          <$> ["1101"; "1102"; "1103"; "1104"; "1105"; "1106"; "1107"; "1108"; "1109"; "1110"; "1111"; "1112"; "1113"; "1114"; "1115"; "1116"; "1117"; "1118"; "1119"; "1120"]).

(** The rows of the history that one file adds for a code: one for each
    row of the frame that the loop records under the code. *)
Definition eligible_entries (allowed_stock_codes : option (gset string))
    (stock_code : string) (f : day_file) : list (string * Z) :=
  match frame_of allowed_stock_codes f with
  | None => []
  | Some df =>
      (λ r, (file_date f, r_lots r))
        <$> filter (λ r, normalize_stock_code (Str (r_code r)) = stock_code
                         ∧ is_allowed_stock (normalize_stock_code (Str (r_code r)))
                                            allowed_stock_codes = true)
                   df
  end.

(** The day's map that one file writes, and the step of the loop as
    [daily_all_stocks] sees it. *)
Definition day_map (allowed_stock_codes : option (gset string))
    (date : string) (df : list row) : gmap string Z :=
  (foldl (record_row date allowed_stock_codes) (∅, ∅) df).1.

Definition record_day_map (allowed_stock_codes : option (gset string))
    (m : gmap string (gmap string Z)) (f : day_file) : gmap string (gmap string Z) :=
  match frame_of allowed_stock_codes f with
  | None => m
  | Some df => <[file_date f := day_map allowed_stock_codes (file_date f) df]> m
  end.

(** The number that a text of digits and commas writes, the commas
    skipped, continued from [acc]. *)
Fixpoint written (acc : Z) (s : string) : Z :=
  match s with
  | EmptyString => acc
  | String c s' =>
      if PyFloat.is_digit c
      then written (10 * acc + PyFloat.digit_value c) s'
      else written acc s'
  end.

Definition digit_or_comma (c : ascii) : bool :=
  PyFloat.is_digit c || Ascii.eqb c ",".

(** Python's [str] on an integer: its decimal text, as the Standard
    Library prints it, with a sign minus before a negative number. *)
Definition decimal (z : Z) : string :=
  DecimalString.NilZero.string_of_int (Z.to_int z).

(* ===================================================================== *)
(** * Properties *)

(** ** Text *)

Module TextFacts.
Import Text.

Lemma app_empty (s : string) : EmptyString +:+ s = s.
Proof. reflexivity. Qed.

Lemma app_cons (c : ascii) (a b : string) : String c a +:+ b = String c (a +:+ b).
Proof. reflexivity. Qed.

Lemma length_app (a b : string) :
  String.length (a +:+ b) = (String.length a + String.length b)%nat.
Proof. induction a as [|c a IH]; [done|]. rewrite app_cons. simpl. by rewrite IH. Qed.

Lemma all_chars_app p (a b : string) :
  all_chars p (a +:+ b) = all_chars p a && all_chars p b.
Proof.
  induction a as [|c a IH]; [done|].
  rewrite app_cons. simpl. rewrite IH. by rewrite andb_assoc.
Qed.

Lemma length_zeros n : String.length (zeros n) = n.
Proof. induction n; simpl; congruence. Qed.

Lemma all_chars_zeros p n : p "0"%char = true → all_chars p (zeros n) = true.
Proof. intros Hp. induction n; simpl; [done|]. by rewrite Hp, IHn. Qed.

Lemma all_chars_impl (p q : ascii → bool) s :
  (∀ c, p c = true → q c = true) → all_chars p s = true → all_chars q s = true.
Proof.
  intros Hpq. induction s as [|c s IH]; simpl; [done|].
  intros [Hc Hs]%andb_prop. rewrite (Hpq _ Hc). by rewrite IH.
Qed.

Lemma digit_not_space c : isdigit_char c = true → isspace c = false.
Proof. destruct c as [[] [] [] [] [] [] [] []]; vm_compute; congruence. Qed.

Lemma digit_not_sign c :
  isdigit_char c = true → (Ascii.eqb c "+" || Ascii.eqb c "-")%bool = false.
Proof. destruct c as [[] [] [] [] [] [] [] []]; vm_compute; congruence. Qed.

Lemma isdigit_all s : isdigit s = true → all_chars isdigit_char s = true.
Proof. by destruct s. Qed.

(** *** [strip] *)

Lemma lstrip_id s : all_chars (λ c, negb (isspace c)) s = true → lstrip s = s.
Proof.
  destruct s as [|c s]; simpl; [done|].
  intros [Hc _]%andb_prop. by destruct (isspace c).
Qed.

Lemma rstrip_id s : all_chars (λ c, negb (isspace c)) s = true → rstrip s = s.
Proof.
  induction s as [|c s IH]; simpl; [done|].
  intros [Hc Hs]%andb_prop. rewrite (IH Hs).
  destruct s; [|done]. by destruct (isspace c).
Qed.

Lemma strip_id s : all_chars (λ c, negb (isspace c)) s = true → strip s = s.
Proof. intros H. unfold strip. rewrite (lstrip_id _ H). by apply rstrip_id. Qed.

Lemma strip_digits s : all_chars isdigit_char s = true → strip s = s.
Proof.
  intros H. apply strip_id. revert H. apply all_chars_impl.
  intros c Hc. by rewrite (digit_not_space _ Hc).
Qed.

Lemma all_chars_lstrip p s : all_chars p s = true → all_chars p (lstrip s) = true.
Proof.
  induction s as [|c s IH]; simpl; [done|].
  intros H. destruct (isspace c); [|done].
  apply andb_prop in H as [_ H]. by apply IH.
Qed.

Lemma all_chars_rstrip p s : all_chars p s = true → all_chars p (rstrip s) = true.
Proof.
  induction s as [|c s IH]; simpl; [done|].
  intros [Hc Hs]%andb_prop. specialize (IH Hs).
  destruct (rstrip s) as [|c' r].
  - destruct (isspace c); simpl; [done|]. by rewrite Hc.
  - change (all_chars p (String c (String c' r))) with (p c && all_chars p (String c' r)).
    by rewrite Hc, IH.
Qed.

Lemma all_chars_strip p s : all_chars p s = true → all_chars p (strip s) = true.
Proof. intros H. by apply all_chars_rstrip, all_chars_lstrip. Qed.

(** *** [replace] *)

Lemma prefix_all_chars p old s :
  String.prefix old s = true → all_chars p s = true → all_chars p old = true.
Proof.
  revert s. induction old as [|a old IH]; intros s; [done|].
  destruct s as [|b s]; simpl; [done|].
  destruct (ascii_dec a b) as [->|]; [|done].
  intros Hpre [Hb Hs]%andb_prop. rewrite Hb. simpl. by eapply IH.
Qed.

Lemma replace_from_here old new c s :
  replace_from old new 0 (String c s) =
  if String.prefix old (String c s)
  then new +:+ replace_from old new (String.length old - 1) s
  else String c (replace_from old new 0 s).
Proof. reflexivity. Qed.

Lemma replace_from_skip old new k c s :
  replace_from old new (S k) (String c s) = replace_from old new k s.
Proof. reflexivity. Qed.

(** A text that lacks one of the characters of [old] is left as it is. *)
Lemma replace_absent p old new s :
  all_chars p old = false → all_chars p s = true → replace old new s = s.
Proof.
  intros Hold. unfold replace. induction s as [|c s IH]; [done|].
  intros Hs. rewrite replace_from_here.
  destruct (String.prefix old (String c s)) eqn:Hpre.
  - pose proof (prefix_all_chars p _ _ Hpre Hs). congruence.
  - simpl in Hs. apply andb_prop in Hs as [_ Hs]. by rewrite (IH Hs).
Qed.

(** Removing text adds no character. *)
Lemma all_chars_remove p old k s :
  all_chars p s = true → all_chars p (replace_from old EmptyString k s) = true.
Proof.
  revert k. induction s as [|c s IH]; intros k; [done|].
  intros H. simpl in H. apply andb_prop in H as [Hc Hs].
  destruct k as [|k]; [|rewrite replace_from_skip; by apply IH].
  rewrite replace_from_here.
  destruct (String.prefix old (String c s)).
  - rewrite app_empty. by apply IH.
  - simpl. rewrite Hc. by apply IH.
Qed.

(** Removing a character leaves no occurrence of it. *)
Lemma remove_char_gone q s :
  all_chars (λ c, negb (Ascii.eqb c q))
            (replace (String q EmptyString) EmptyString s) = true.
Proof.
  unfold replace. induction s as [|c s IH]; [done|].
  rewrite replace_from_here. simpl String.prefix.
  destruct (ascii_dec q c) as [->|Hne].
  - assert (String.prefix EmptyString s = true) as -> by (by destruct s).
    simpl. by rewrite app_empty.
  - simpl. rewrite IH.
    assert (Ascii.eqb c q = false) as ->; [|done].
    apply Ascii.eqb_neq. congruence.
Qed.

End TextFacts.

(** ** The code normaliser *)

Module Normalizer.
Import Text TextFacts.

Lemma all_chars_and (p q : ascii → bool) s :
  all_chars p s = true → all_chars q s = true →
  all_chars (λ c, p c && q c) s = true.
Proof.
  induction s as [|c s IH]; simpl; [done|].
  intros [-> Hp]%andb_prop [-> Hq]%andb_prop. simpl. by apply IH.
Qed.

(** After the three removals no quote is left. *)
Lemma cleaned_unquoted t : all_chars unquoted (cleaned t) = true.
Proof.
  unfold cleaned, unquoted. apply all_chars_and.
  - apply all_chars_remove. apply remove_char_gone.
  - apply remove_char_gone.
Qed.

(** A text without quotes is not changed by the three removals. *)
Lemma cleaned_id t : all_chars unquoted t = true → cleaned t = t.
Proof.
  intros H. unfold cleaned.
  rewrite (replace_absent unquoted eq_dquote _ t); [|done..].
  rewrite (replace_absent unquoted dquote _ t); [|done..].
  by rewrite (replace_absent unquoted quote _ t).
Qed.

Lemma digit_unquoted c : isdigit_char c = true → unquoted c = true.
Proof. destruct c as [[] [] [] [] [] [] [] []]; vm_compute; congruence. Qed.

Lemma zfill_digits x :
  isdigit x = true → (String.length x < 4)%nat →
  zfill 4 x = zeros (4 - String.length x) +:+ x.
Proof.
  intros Hd Hlen. unfold zfill.
  destruct (Nat.leb_spec 4 (String.length x)) as [?|_]; [lia|].
  destruct x as [|c x]; [done|].
  apply isdigit_all in Hd. simpl in Hd. apply andb_prop in Hd as [Hc _].
  by rewrite (digit_not_sign _ Hc).
Qed.

Lemma zfill_digits_all p x :
  p "0"%char = true → (∀ c, isdigit_char c = true → p c = true) →
  isdigit x = true → (String.length x < 4)%nat →
  all_chars p (zfill 4 x) = true ∧ String.length (zfill 4 x) = 4%nat.
Proof.
  intros H0 Hp Hd Hlen. rewrite (zfill_digits _ Hd Hlen). split.
  - rewrite all_chars_app, (all_chars_zeros _ _ H0). simpl.
    eapply all_chars_impl; [exact Hp|]. by apply isdigit_all.
  - rewrite length_app, length_zeros. lia.
Qed.

Lemma normalize_unfold s :
  normalize_stock_code (Str s) =
  if String.eqb s EmptyString then EmptyString else settle (cleaned (strip s)).
Proof. reflexivity. Qed.

(** What a normalised code looks like: no quote in it, and no digit text
    shorter than four characters. *)
Lemma settle_shape u :
  all_chars unquoted u = true →
  all_chars unquoted (settle u) = true
  ∧ isdigit (settle u) && (String.length (settle u) <? 4)%nat = false.
Proof.
  intros Hu. unfold settle.
  destruct (isdigit u && (String.length u <? 4)%nat) eqn:Hc; [|done].
  apply andb_prop in Hc as [Hd Hl]. apply Nat.ltb_lt in Hl.
  destruct (zfill_digits_all unquoted u eq_refl digit_unquoted Hd Hl) as [Ha Hn].
  split; [done|]. rewrite Hn. by rewrite andb_false_r.
Qed.

Lemma normalize_shape c :
  all_chars unquoted (normalize_stock_code c) = true
  ∧ isdigit (normalize_stock_code c)
    && (String.length (normalize_stock_code c) <? 4)%nat = false.
Proof.
  destruct c as [|s]; [done|]. rewrite normalize_unfold.
  destruct (String.eqb s EmptyString); [done|].
  apply settle_shape, cleaned_unquoted.
Qed.

(** The second pass over a text without quotes: only [strip] and the
    padding can still act. *)
Lemma normalize_unquoted r :
  all_chars unquoted r = true →
  normalize_stock_code (Str r) = settle (strip r).
Proof.
  intros Hr. rewrite normalize_unfold.
  destruct (String.eqb_spec r EmptyString) as [->|_]; [done|].
  by rewrite cleaned_id by by apply all_chars_strip.
Qed.

Lemma settle_digits_strip t :
  isdigit t && (String.length t <? 4)%nat = true → strip (settle t) = settle t.
Proof.
  intros Hc. unfold settle. rewrite Hc.
  apply andb_prop in Hc as [Hd Hl]. apply Nat.ltb_lt in Hl.
  apply strip_digits.
  by apply (zfill_digits_all isdigit_char t eq_refl (λ c H, H) Hd Hl).
Qed.

(** A second pass leaves a normalised code as it is exactly when [strip]
    does. *)
Lemma renormalize_iff c :
  normalize_stock_code (Str (normalize_stock_code c)) = normalize_stock_code c
  ↔ strip (normalize_stock_code c) = normalize_stock_code c.
Proof.
  destruct (normalize_shape c) as [Hq Hstable].
  set (r := normalize_stock_code c) in *.
  rewrite (normalize_unquoted r Hq). split.
  - intros Heq.
    destruct (isdigit (strip r) && (String.length (strip r) <? 4)%nat) eqn:Hc.
    + rewrite <- Heq at 1. rewrite settle_digits_strip; done.
    + unfold settle in Heq. by rewrite Hc in Heq.
  - intros ->. unfold settle. by rewrite Hstable.
Qed.

(** A text of fewer than four digits is padded on the left with zeros to
    exactly four characters; and a second pass of the normaliser gives the
    same code exactly when the first pass left no space at either end. *)
Lemma normalize_stock_code_pads_and_settles :
  (∀ s, isdigit s = true → (String.length s < 4)%nat →
        normalize_stock_code (Str s) = zeros (4 - String.length s) +:+ s
        ∧ String.length (normalize_stock_code (Str s)) = 4%nat)
  ∧ (∀ c, normalize_stock_code (Str (normalize_stock_code c))
            = normalize_stock_code c
          ↔ strip (normalize_stock_code c) = normalize_stock_code c).
Proof.
  split; [|exact renormalize_iff].
  intros s Hd Hlen.
  assert (all_chars isdigit_char s = true) as Hall by by apply isdigit_all.
  assert (normalize_stock_code (Str s) = zfill 4 s) as ->.
  { rewrite normalize_unfold.
    destruct (String.eqb_spec s EmptyString) as [->|_]; [done|].
    rewrite (strip_digits _ Hall).
    rewrite cleaned_id by (eapply all_chars_impl; [exact digit_unquoted|done]).
    unfold settle. rewrite Hd. by apply Nat.ltb_lt in Hlen as ->. }
  rewrite (zfill_digits _ Hd Hlen). split; [done|].
  rewrite length_app, length_zeros. lia.
Qed.

Lemma normalize_stock_code_pads_and_settles_witness :
  normalize_stock_code (Str "56") = "0056"
  ∧ String.length (normalize_stock_code (Str "56")) = 4%nat.
Proof.
  apply (proj1 normalize_stock_code_pads_and_settles "56"); [reflexivity|].
  simpl; lia.
Defined.

(** C9.  The normaliser is not idempotent, as the claim has it and as its
    callers need it, which normalise codes that are normalised already:
    [strip] runs before the quotes are removed, so that a space inside the
    quotes is left by the first pass and removed by the second, after
    which the code is padded. *)
Theorem normalize_stock_code_not_idempotent :
  let s := dquote +:+ "56 " +:+ dquote in
  normalize_stock_code (Str s) = "56 "
  ∧ normalize_stock_code (Str (normalize_stock_code (Str s))) = "0056"
  ∧ normalize_stock_code (Str (normalize_stock_code (Str s)))
    ≠ normalize_stock_code (Str s).
Proof. vm_compute. repeat split; discriminate. Qed.

End Normalizer.

(** ** Doubles: the quotient by 1000 *)

Module Float64Facts.
Import Float64.
#[local] Open Scope Z_scope.

Lemma digits2_size (p : positive) : digits2_pos p = Pos.size p.
Proof. induction p; simpl; congruence. Qed.

Lemma size_bounds (p : positive) :
  2 ^ (Z.pos (Pos.size p) - 1) <= Z.pos p < 2 ^ Z.pos (Pos.size p).
Proof.
  pose proof (Pos.size_gt p) as Hgt. pose proof (Pos.size_le p) as Hle.
  apply Pos2Z.pos_lt_pos in Hgt. apply Pos2Z.pos_le_pos in Hle.
  rewrite Pos2Z.inj_pow in Hgt, Hle. change (Z.pos p~0) with (2 * Z.pos p) in Hle.
  split; [|exact Hgt].
  assert (2 ^ Z.pos (Pos.size p) = 2 * 2 ^ (Z.pos (Pos.size p) - 1)) as E.
  { rewrite <- Z.pow_succ_r by lia. f_equal. lia. }
  lia.
Qed.

Lemma digits_unique (p : positive) (d : Z) :
  2 ^ (d - 1) <= Z.pos p < 2 ^ d → Zdigits2 (Z.pos p) = d.
Proof.
  intros [Hlo Hhi]. simpl. rewrite digits2_size.
  destruct (size_bounds p) as [Hlo' Hhi'].
  assert (0 < d) as Hd.
  { destruct (Z.lt_trichotomy d 0) as [H|[H|H]]; [|subst|done].
    - rewrite Z.pow_neg_r in Hhi by done. lia.
    - simpl in Hhi. lia. }
  destruct (Z.lt_trichotomy (Z.pos (Pos.size p)) d) as [H|[H|H]]; [|done|].
  - assert (2 ^ Z.pos (Pos.size p) <= 2 ^ (d - 1)) by (apply Z.pow_le_mono_r; lia). lia.
  - assert (2 ^ d <= 2 ^ (Z.pos (Pos.size p) - 1)) by (apply Z.pow_le_mono_r; lia). lia.
Qed.


Lemma iter_xO (p n : positive) : Z.pos (Pos.iter xO p n) = Z.pos p * 2 ^ Z.pos n.
Proof.
  revert p. induction n as [|n IH] using Pos.peano_ind; intros p.
  - simpl. lia.
  - rewrite Pos.iter_succ, Pos2Z.inj_succ, Z.pow_succ_r by lia.
    change (Z.pos (Pos.iter xO p n)~0) with (2 * Z.pos (Pos.iter xO p n)).
    rewrite IH. lia.
Qed.

Lemma fexp_normal (d : Z) : -1021 <= d → fexp prec emax d = d - 53.
Proof. unfold fexp, emin, prec, emax. lia. Qed.

(** A mantissa of 53 digits with no part cut off is kept as it is. *)
Lemma round_exact (s : bool) (m : positive) (e : Z) :
  2 ^ 52 <= Z.pos m < 2 ^ 53 → -1074 <= e <= 971 →
  binary_round_aux prec emax s (Z.pos m) e loc_Exact = S754_finite s m e.
Proof.
  intros Hm He. unfold binary_round_aux, shr_fexp.
  rewrite (digits_unique m 53) by exact Hm.
  rewrite fexp_normal by lia.
  replace (53 + e - 53 - e) with 0 by lia. cbn [shr shr_record_of_loc shr_m].
  cbn [loc_of_shr_record round_nearest_even].
  rewrite (digits_unique m 53) by exact Hm.
  rewrite fexp_normal by lia.
  replace (53 + e - 53 - e) with 0 by lia. cbn [shr shr_m].
  unfold emax, prec. destruct (Z.leb_spec e (1024 - 53)); [done|lia].
Qed.

(** The double of an integer below 2^53: the integer itself, its mantissa
    shifted to 53 digits. *)
Lemma of_pos_normal (s : bool) (p : positive) :
  Z.pos p < 2 ^ 53 →
  ∃ m e, binary_round prec emax s p 0 = S754_finite s m e
         ∧ 2 ^ 52 <= Z.pos m < 2 ^ 53 ∧ -52 <= e <= 0
         ∧ Z.pos m = Z.pos p * 2 ^ (- e)
         ∧ 2 ^ (52 + e) <= Z.pos p < 2 ^ (53 + e).
Proof.
  intros Hp. pose proof (size_bounds p) as Hsz.
  set (d := Z.pos (Pos.size p)) in *.
  assert (1 <= d <= 53) as Hd.
  { split; [unfold d; lia|].
    destruct (Z.le_gt_cases d 53) as [?|Hgt]; [done|].
    assert (2 ^ 53 <= 2 ^ (d - 1)) by (apply Z.pow_le_mono_r; lia). lia. }
  unfold binary_round. cbn [Z.add]. rewrite digits2_size. fold d.
  rewrite Z.add_0_r, fexp_normal by lia. unfold shl_align.
  destruct (Z.eq_dec d 53) as [E|E].
  - rewrite E. change (53 - 53 - 0) with 0. cbv beta iota. exists p, 0.
    rewrite E in Hsz. rewrite round_exact by (simpl in *; lia).
    split_and!; try done; try lia.
  - destruct (d - 53 - 0) as [|k|k] eqn:Hk; [lia..|].
    exists (Pos.iter xO p k), (d - 53).
    assert (Z.pos k = 53 - d) as Ek by lia.
    assert (Z.pos (Pos.iter xO p k) = Z.pos p * 2 ^ (53 - d)) as Em
      by (by rewrite iter_xO, Ek).
    assert (2 ^ 53 = 2 ^ d * 2 ^ (53 - d)) as E53
      by (rewrite <- Z.pow_add_r by lia; f_equal; lia).
    assert (2 ^ 52 = 2 ^ (d - 1) * 2 ^ (53 - d)) as E52
      by (rewrite <- Z.pow_add_r by lia; f_equal; lia).
    assert (0 < 2 ^ (53 - d)) by (apply Z.pow_pos_nonneg; lia).
    assert (2 ^ 52 <= Z.pos (Pos.iter xO p k) < 2 ^ 53) as Hm.
    { rewrite Em, E52, E53. split.
      - apply Z.mul_le_mono_nonneg_r; lia.
      - apply Z.mul_lt_mono_pos_r; lia. }
    rewrite round_exact by (done || lia).
    split_and!; try done; try lia.
    + rewrite Em. f_equal. f_equal. lia.
    + replace (52 + (d - 53)) with (d - 1) by lia. lia.
    + replace (53 + (d - 53)) with d by lia. lia.
Qed.


Lemma shr_record_loc (m : Z) (l : location) :
  shr_m (shr_record_of_loc m l) = m
  ∧ loc_of_shr_record (shr_record_of_loc m l) = l.
Proof. by destruct l as [|[]]. Qed.

Lemma round_nearest_even_bounds (m : Z) (l : location) :
  m <= round_nearest_even m l <= m + 1.
Proof. destruct l as [|[]]; simpl; [lia| |lia..]. destruct (Z.even m); lia. Qed.

(** The last step of [binary_round_aux]: a mantissa that rounding has
    carried to 2^53 is cut to 53 digits again. *)
Lemma renormalise (s : bool) (m1 : positive) (e : Z) :
  2 ^ 52 <= Z.pos m1 <= 2 ^ 53 → -1074 <= e <= 970 →
  ∃ m' e',
    (let '(mrs, e'') := shr_fexp prec emax (Z.pos m1) e loc_Exact in
     match shr_m mrs with
     | Z0 => S754_zero s
     | Z.pos m => if e'' <=? emax - prec then S754_finite s m e'' else S754_infinity s
     | Z.neg _ => S754_nan
     end) = S754_finite s m' e'
    ∧ e <= e' <= e + 1 ∧ Z.pos m' * 2 ^ (e' - e) = Z.pos m1.
Proof.
  intros Hm He. unfold shr_fexp.
  destruct (Z.eq_dec (Z.pos m1) (2 ^ 53)) as [E|E].
  - rewrite (digits_unique m1 54) by (rewrite E; simpl; lia).
    rewrite fexp_normal by lia.
    replace (54 + e - 53 - e) with 1 by lia.
    injection E as ->. cbn [shr shr_record_of_loc SpecFloat.iter_pos shr_1 shr_m orb].
    exists 4503599627370496%positive, (e + 1).
    unfold emax, prec. destruct (Z.leb_spec (e + 1) (1024 - 53)); [|lia].
    split_and!; [done|lia..|].
    replace (e + 1 - e) with 1 by lia. done.
  - rewrite (digits_unique m1 53) by lia.
    rewrite fexp_normal by lia.
    replace (53 + e - 53 - e) with 0 by lia. cbn [shr shr_record_of_loc shr_m].
    exists m1, e. unfold emax, prec.
    destruct (Z.leb_spec e (1024 - 53)); [|lia].
    split_and!; [done|lia..|]. rewrite Z.sub_diag. simpl. lia.
Qed.

(** A quotient of 53 or 54 digits with the place of the rest: the double
    is its mantissa rounded to 53 digits, which is the quotient with its
    last digit cleared at least and the quotient and one at most. *)
Lemma round_quotient (s : bool) (q : positive) (e : Z) (l : location) :
  2 ^ 52 <= Z.pos q < 2 ^ 54 → -1074 <= e <= 960 →
  ∃ m' e',
    binary_round_aux prec emax s (Z.pos q) e l = S754_finite s m' e'
    ∧ e <= e' <= e + 2
    ∧ 2 * (Z.pos q / 2) <= Z.pos m' * 2 ^ (e' - e) <= Z.pos q + 1.
Proof.
  intros Hq He. unfold binary_round_aux.
  destruct (Z.lt_ge_cases (Z.pos q) (2 ^ 53)) as [H53|H54].
  - unfold shr_fexp at 1.
    rewrite (digits_unique q 53) by lia.
    rewrite fexp_normal by lia.
    replace (53 + e - 53 - e) with 0 by lia. cbn [shr].
    destruct (shr_record_loc (Z.pos q) l) as [-> ->].
    pose proof (round_nearest_even_bounds (Z.pos q) l) as Hr.
    destruct (round_nearest_even (Z.pos q) l) as [|m1|m1] eqn:Hm1; [lia| |lia].
    destruct (renormalise s m1 e) as (m' & e' & -> & He' & Hv); [lia..|].
    exists m', e'. split_and!; [done|lia..| |lia].
    rewrite Hv. pose proof (Z.mul_div_le (Z.pos q) 2). lia.
  - unfold shr_fexp at 1.
    rewrite (digits_unique q 54) by lia.
    rewrite fexp_normal by lia.
    replace (54 + e - 53 - e) with 1 by lia. cbn [shr SpecFloat.iter_pos].
    set (mrs := shr_1 (shr_record_of_loc (Z.pos q) l)).
    assert (shr_m mrs = Z.pos q / 2
            ∧ (shr_r mrs = true → Z.pos q = 2 * (Z.pos q / 2) + 1)) as [Hm Hodd].
    { unfold mrs. destruct q as [q|q|].
      - rewrite Pos2Z.inj_xI.
        replace ((2 * Z.pos q + 1) / 2) with (Z.pos q)
          by (apply Z.div_unique with 1; lia).
        by destruct l as [|[]].
      - rewrite Pos2Z.inj_xO.
        replace ((2 * Z.pos q) / 2) with (Z.pos q)
          by (apply Z.div_unique with 0; lia).
        by destruct l as [|[]].
      - simpl in H54. lia. }
    assert (2 ^ 52 <= Z.pos q / 2 < 2 ^ 53) as Hhalf.
    { split.
      - apply Z.div_le_lower_bound; [lia|]. change (2 * 2 ^ 52) with (2 ^ 53). lia.
      - apply Z.div_lt_upper_bound; [lia|]. change (2 * 2 ^ 53) with (2 ^ 54). lia. }
    assert (shr_m mrs <= round_nearest_even (shr_m mrs) (loc_of_shr_record mrs)
              <= shr_m mrs + 1
            ∧ (round_nearest_even (shr_m mrs) (loc_of_shr_record mrs) = shr_m mrs + 1
               → shr_r mrs = true)) as [Hr Hup].
    { destruct mrs as [m [] []]; cbn [shr_m shr_r loc_of_shr_record round_nearest_even];
        (split; [try destruct (Z.even m); lia|]); try done; lia. }
    set (r := round_nearest_even (shr_m mrs) (loc_of_shr_record mrs)) in *.
    rewrite Hm in Hr, Hup.
    destruct r as [|m1|m1]; [lia| |lia].
    destruct (renormalise s m1 (e + 1)) as (m' & e' & -> & He' & Hv); [lia..|].
    exists m', e'. split_and!; [done|lia..| |].
    + replace (e' - e) with (e' - (e + 1) + 1) by lia.
      rewrite Z.pow_add_r, Z.mul_assoc, Hv by lia. change (2 ^ 1) with 2. lia.
    + replace (e' - e) with (e' - (e + 1) + 1) by lia.
      rewrite Z.pow_add_r, Z.mul_assoc, Hv by lia. change (2 ^ 1) with 2.
      destruct (Z.eq_dec (Z.pos m1) (Z.pos q / 2 + 1)) as [E|E].
      * specialize (Hodd (Hup E)). lia.
      * pose proof (Z.mul_div_le (Z.pos q) 2). lia.
Qed.


(** The quotient of two doubles of 53 digits. *)
Lemma div_normal (sx sy : bool) (mx my : positive) (ex ey : Z) :
  2 ^ 52 <= Z.pos mx < 2 ^ 53 → 2 ^ 52 <= Z.pos my < 2 ^ 53 →
  -1021 <= ex - ey <= 1013 →
  ∃ m' e',
    div (S754_finite sx mx ex) (S754_finite sy my ey)
    = S754_finite (xorb sx sy) m' e'
    ∧ ex - ey - 53 <= e' <= ex - ey - 51
    ∧ 2 * ((Z.pos mx * 2 ^ 53) / Z.pos my / 2)
      <= Z.pos m' * 2 ^ (e' - (ex - ey - 53))
      <= (Z.pos mx * 2 ^ 53) / Z.pos my + 1.
Proof.
  intros Hx Hy He. unfold div, SFdiv, SFdiv_core_binary.
  rewrite (digits_unique mx 53), (digits_unique my 53) by done.
  replace (53 + ex - (53 + ey)) with (ex - ey) by lia.
  rewrite fexp_normal by lia.
  rewrite Z.min_l by lia.
  replace (ex - ey - (ex - ey - 53)) with 53 by lia. cbv beta iota.
  rewrite Z.shiftl_mul_pow2 by lia.
  pose proof (Z.div_eucl_eq (Z.pos mx * 2 ^ 53) (Z.pos my) ltac:(lia)) as Heq.
  pose proof (Z.mod_pos_bound (Z.pos mx * 2 ^ 53) (Z.pos my) ltac:(lia)) as Hmod.
  unfold Z.modulo in Hmod.
  assert ((Z.pos mx * 2 ^ 53) / Z.pos my = (Z.div_eucl (Z.pos mx * 2 ^ 53) (Z.pos my)).1)
    as Hdiv by reflexivity.
  destruct (Z.div_eucl (Z.pos mx * 2 ^ 53) (Z.pos my)) as [q r].
  cbn [fst] in Hdiv. rewrite Hdiv. 
  assert (2 ^ 52 <= q < 2 ^ 54) as Hq.
  { change (2 ^ 54) with (2 * 2 ^ 53) in *. change (2 ^ 53) with (2 * 2 ^ 52) in *. nia. }
  destruct q as [|q|q]; [lia| |lia].
  destruct (round_quotient (xorb sx sy) q (ex - ey - 53) (new_location (Z.pos my) r))
    as (m' & e' & -> & He' & Hv); [done|lia|].
  exists m', e'. split_and!; [done|lia..].
Qed.

Lemma thousand_normal : thousand = S754_finite false 8796093022208000 (-43).
Proof. reflexivity. Qed.

Lemma quotient_by_thousand (s : bool) (p : positive) :
  Z.pos p < 2 ^ 53 →
  trunc (div (binary_round prec emax s p 0) thousand)
  = Some (cond_Zopp s (Z.pos p / 1000)).
Proof.
  intros Hp.
  destruct (of_pos_normal s p Hp) as (m & e & -> & Hm & He & Em & Hpe).
  rewrite thousand_normal.
  destruct (div_normal s false m 8796093022208000 e (-43)) as (m' & e' & -> & He' & Hv);
    [done|done|lia|].
  cbn [trunc]. rewrite xorb_false_r. do 2 f_equal.
  rewrite Z.shiftl_div_pow2 by lia.
  set (G := 2 ^ (10 - e)).
  assert (1024 <= G) as HG.
  { change 1024 with (2 ^ 10). apply Z.pow_le_mono_r; lia. }
  assert ((Z.pos m * 2 ^ 53) / 8796093022208000 = (Z.pos p * G) / 1000) as Hq.
  { rewrite Em. change 8796093022208000 with (1000 * 2 ^ 43).
    replace (Z.pos p * 2 ^ (- e) * 2 ^ 53) with (Z.pos p * G * 2 ^ 43).
    - apply Z.div_mul_cancel_r; lia.
    - unfold G. replace (10 - e) with (- e + 10) by lia.
      rewrite Z.pow_add_r by lia. change (2 ^ 53) with (2 ^ 10 * 2 ^ 43). lia. }
  rewrite Hq in Hv. clear Hq.
  replace (e - -43 - 53) with (e - 10) in * by lia.
  assert (2 ^ (- e') * 2 ^ (e' - (e - 10)) = G) as HGe.
  { rewrite <- Z.pow_add_r by lia. unfold G. f_equal. lia. }
  set (V := Z.pos m' * 2 ^ (e' - (e - 10))) in *.
  assert (Z.pos m' / 2 ^ (- e') = V / G) as ->.
  { rewrite <- HGe. unfold V. symmetry. apply Z.div_mul_cancel_r.
    - apply Z.pow_nonzero; lia.
    - apply Z.pow_nonzero; lia. }
  set (k := Z.pos p / 1000). set (rho := Z.pos p mod 1000).
  assert (Z.pos p = 1000 * k + rho) as Ep by (apply Z.div_mod; lia).
  assert (0 <= rho < 1000) as Hrho by (apply Z.mod_pos_bound; lia).
  set (t := (rho * G) / 1000).
  assert (Z.pos p * G / 1000 = k * G + t) as Eq.
  { rewrite Ep. replace ((1000 * k + rho) * G) with (rho * G + k * G * 1000) by lia.
    rewrite Z.div_add by lia. unfold t. lia. }
  rewrite Eq in Hv.
  assert (0 <= t <= G - 2) as Ht.
  { unfold t. split.
    - apply Z.div_pos; nia.
    - apply Z.lt_succ_r, Z.div_lt_upper_bound; nia. }
  assert (Z.even G = true) as Heven.
  { unfold G. replace (10 - e) with (Z.succ (9 - e)) by lia.
    rewrite Z.pow_succ_r by lia. apply Z.even_mul. }
  assert (k * G <= 2 * ((k * G + t) / 2)) as Hlow.
  { apply Z.even_spec in Heven as [h Hh]. rewrite Hh.
    replace (k * (2 * h) + t) with (t + k * h * 2) by lia.
    rewrite Z.div_add by lia. pose proof (Z.div_pos t 2). lia. }
  symmetry. apply Z.div_unique with (V - k * G); lia.
Qed.

(** Division by 1000 in doubles and the cut of the quotient give the exact
    quotient, cut towards zero, of every integer up to 2^53. *)
Lemma trunc_div_thousand (z : Z) :
  Z.abs z <= 2 ^ 53 → trunc (div (of_Z z) thousand) = Some (z ÷ 1000).
Proof.
  intros Hz.
  destruct (Z.eq_dec (Z.abs z) (2 ^ 53)) as [E|E].
  { destruct z as [|p|p]; [done|injection E as ->; reflexivity..]. }
  destruct z as [|p|p].
  - reflexivity.
  - unfold of_Z, binary_normalize. rewrite quotient_by_thousand by lia.
    cbn [cond_Zopp]. by rewrite Z.quot_div_nonneg by lia.
  - unfold of_Z, binary_normalize. rewrite quotient_by_thousand by lia.
    cbn [cond_Zopp]. change (Z.neg p) with (- Z.pos p).
    rewrite Z.quot_opp_l by lia. by rewrite Z.quot_div_nonneg by lia.
Qed.

End Float64Facts.

(** ** Shares to lots *)

Module Lots.
Import Text TextFacts Float64 PyFloat Float64Facts.
#[local] Open Scope Z_scope.

Lemma quot_floor_nonneg (z : Z) : 0 ≤ z → z ÷ 1000 = z / 1000.
Proof. intros Hz. by apply Z.quot_div_nonneg. Qed.

Lemma quot_floor_neg (z : Z) :
  z < 0 → z mod 1000 ≠ 0 → z ÷ 1000 = z / 1000 + 1.
Proof.
  intros Hz Hm.
  pose proof (Z.quot_rem' z 1000) as Hq.
  pose proof (Z.rem_bound_pos_neg z 1000 ltac:(lia) ltac:(lia)) as Hr.
  pose proof (Z.div_mod z 1000 ltac:(lia)) as Hd.
  pose proof (Z.mod_pos_bound z 1000 ltac:(lia)) as Hb.
  lia.
Qed.

Lemma quot_small (z : Z) : Z.abs z < 1000 → z ÷ 1000 = 0.
Proof.
  intros Hz. destruct (Z.le_gt_cases 0 z) as [Hp|Hn].
  - apply Z.quot_small. lia.
  - rewrite <- (Z.opp_involutive z), Z.quot_opp_l by lia.
    rewrite Z.quot_small by lia. done.
Qed.

Lemma lots_of_integer (z : Z) :
  Z.abs z ≤ 2 ^ 53 → lots_of (of_Z z) = Some (z ÷ 1000).
Proof. apply trunc_div_thousand. Qed.

Lemma quot_int64 (z : Z) :
  Z.abs z ≤ 2 ^ 53 → - 2 ^ 63 ≤ z ÷ 1000 < 2 ^ 63.
Proof.
  intros Hz.
  assert (Z.abs (z ÷ 1000) ≤ Z.abs z) as H.
  { rewrite <- Z.quot_abs by lia. change (Z.abs 1000) with 1000.
    rewrite Z.quot_div_nonneg by lia. apply Z.div_le_upper_bound; lia. }
  change (2 ^ 63) with (1024 * 2 ^ 53). lia.
Qed.

(** *** Numbers *)

Lemma shares_to_lots_int (z : Z) :
  Z.abs z ≤ 2 ^ 53 → shares_to_lots (VInt z) = z ÷ 1000.
Proof.
  intros Hz. pose proof (lots_of_integer z Hz) as H.
  unfold shares_to_lots, float_of_int.
  destruct (of_Z z); by rewrite ?H.
Qed.

Lemma shares_to_lots_float (z : Z) :
  Z.abs z ≤ 2 ^ 53 → shares_to_lots (VFloat (of_Z z)) = z ÷ 1000.
Proof.
  intros Hz. pose proof (lots_of_integer z Hz) as H.
  unfold shares_to_lots. destruct (of_Z z); by rewrite ?H.
Qed.

Lemma lots_cell_integer (shares : number) (z : Z) :
  Z.abs z ≤ 2 ^ 53 → shares = Int z ∨ shares = Float (of_Z z) →
  lots_cell shares = Some (z ÷ 1000).
Proof.
  intros Hz Hs. pose proof (lots_of_integer z Hz) as H.
  pose proof (quot_int64 z Hz) as [Hlo Hhi].
  assert (to_int64 (div (of_Z z) thousand) = Some (z ÷ 1000)) as Hcast.
  { unfold to_int64. unfold lots_of in H. rewrite H. simpl. f_equal.
    destruct (Z.leb_spec (- 2 ^ 63) (z ÷ 1000)); [|lia].
    destruct (Z.ltb_spec (z ÷ 1000) (2 ^ 63)); [done|lia]. }
  unfold lots_cell, lots_of in *.
  destruct Hs as [-> | ->]; destruct (div (of_Z z) thousand); done.
Qed.

(** *** Text *)

Lemma replace_comma_cons (c : ascii) (s : string) :
  replace "," EmptyString (String c s)
  = if Ascii.eqb c "," then replace "," EmptyString s
    else String c (replace "," EmptyString s).
Proof.
  unfold replace. rewrite replace_from_here.
  change (String.prefix "," (String c s))
    with (if ascii_dec "," c then String.prefix EmptyString s else false).
  destruct (ascii_dec "," c) as [<-|Hne].
  - assert (String.prefix EmptyString s = true) as -> by (by destruct s).
    reflexivity.
  - assert (Ascii.eqb c "," = false) as ->; [|reflexivity].
    apply Ascii.eqb_neq. congruence.
Qed.

Lemma digit_facts (c : ascii) :
  is_digit c = true →
  Ascii.eqb c "," = false ∧ Ascii.eqb c "_" = false ∧ Ascii.eqb c "-" = false
  ∧ Ascii.eqb c "+" = false ∧ isspace c = false ∧ (0 ≤ digit_value c)%Z.
Proof. destruct c as [[] [] [] [] [] [] [] []]; vm_compute; intros; split_and!; congruence. Qed.

(** Without its commas, a text of digits and commas is a text of digits
    that writes the same number. *)
Lemma replace_commas (body : string) :
  all_chars digit_or_comma body = true →
  all_chars is_digit (replace "," EmptyString body) = true
  ∧ (∀ acc, written acc (replace "," EmptyString body) = written acc body)
  ∧ (all_chars (λ c, Ascii.eqb c ",") body = false →
     replace "," EmptyString body ≠ EmptyString).
Proof.
  induction body as [|c body IH]; [done|].
  simpl all_chars. intros [Hc Hb]%andb_prop.
  destruct (IH Hb) as (Hd & Hw & Hne). rewrite replace_comma_cons.
  unfold digit_or_comma in Hc.
  destruct (Ascii.eqb c ",") eqn:Hcomma.
  - apply Ascii.eqb_eq in Hcomma as ->. split_and!; [done| |done].
    intros acc. by rewrite Hw.
  - rewrite orb_false_r in Hc. split_and!; [|intros acc|done].
    + simpl. by rewrite Hc, Hd.
    + simpl. by rewrite Hc, Hw.
Qed.

Lemma written_nonneg (s : string) (acc : Z) : 0 ≤ acc → 0 ≤ written acc s.
Proof.
  revert acc. induction s as [|c s IH]; intros acc Hacc; [done|].
  simpl. destruct (is_digit c) eqn:Hc; [|by apply IH].
  apply IH. pose proof (digit_facts c Hc). lia.
Qed.

Lemma drop_underscores_none (s : string) (prev : ascii) :
  all_chars is_digit s = true → Ascii.eqb prev "_" = false →
  drop_underscores prev s = Some s.
Proof.
  revert prev. induction s as [|c s IH]; intros prev Hs Hprev; simpl.
  - by rewrite Hprev.
  - simpl in Hs. apply andb_prop in Hs as [Hc Hs].
    destruct (digit_facts c Hc) as (_ & Hu & _).
    by rewrite Hu, Hprev, (IH c Hs Hu).
Qed.

Lemma lstrip_digits (s : string) : all_chars is_digit s = true → lstrip s = s.
Proof.
  destruct s as [|c s]; simpl; [done|]. intros [Hc _]%andb_prop.
  destruct (digit_facts c Hc) as (_ & _ & _ & _ & -> & _). done.
Qed.

Lemma rstrip_digits (s : string) : all_chars is_digit s = true → rstrip s = s.
Proof.
  induction s as [|c s IH]; simpl; [done|].
  intros [Hc Hs]%andb_prop. rewrite (IH Hs).
  destruct (digit_facts c Hc) as (_ & _ & _ & _ & -> & _). by destruct s.
Qed.

Lemma digits_all (s : string) (acc : Z) (count : nat) :
  all_chars is_digit s = true →
  digits acc count s = (written acc s, (count + String.length s)%nat, EmptyString).
Proof.
  revert acc count. induction s as [|c s IH]; intros acc count Hs; simpl.
  - by rewrite Nat.add_0_r.
  - simpl in Hs. apply andb_prop in Hs as [Hc Hs].
    rewrite Hc, (IH _ _ Hs). do 2 f_equal. lia.
Qed.

(** [float] on a text of digits, with a sign minus or without a sign. *)
Lemma float_of_digits (neg : bool) (ds : string) :
  all_chars is_digit ds = true → ds ≠ EmptyString →
  float_of_str ((if neg then "-" else EmptyString) +:+ ds)
  = Some (of_decimal neg (written 0 ds) 0).
Proof.
  intros Hds Hne. destruct ds as [|c ds]; [done|].
  pose proof Hds as Hall. simpl in Hds. apply andb_prop in Hds as [Hc Hds].
  destruct (digit_facts c Hc) as (_ & Hu & Hm & Hp & Hsp & _).
  unfold float_of_str.
  assert (drop_underscores "000" ((if neg then "-" else EmptyString) +:+ String c ds)
          = Some ((if neg then "-" else EmptyString) +:+ String c ds)) as ->.
  { destruct neg.
    - change ("-" +:+ String c ds) with (String "-" (String c ds)).
      cbn [drop_underscores]. change (Ascii.eqb "-" "_") with false.
      change (Ascii.eqb "000" "_") with false. cbn [andb].
      by rewrite Hu, (drop_underscores_none ds c Hds Hu).
    - rewrite app_empty. by apply drop_underscores_none. }
  cbn [mbind option_bind].
  assert (rstrip (lstrip ((if neg then "-" else EmptyString) +:+ String c ds))
          = (if neg then "-" else EmptyString) +:+ String c ds) as ->.
  { destruct neg.
    - change ("-" +:+ String c ds) with (String "-" (String c ds)).
      change (lstrip (String "-" (String c ds))) with (String "-" (String c ds)).
      change (rstrip (String "-" (String c ds)))
        with (match rstrip (String c ds) with
              | EmptyString => "-"
              | r => String "-" r
              end).
      by rewrite (rstrip_digits _ Hall).
    - rewrite app_empty, (lstrip_digits _ Hall). by apply rstrip_digits. }
  assert (sign ((if neg then "-" else EmptyString) +:+ String c ds)
          = (neg, String c ds)) as Hsign.
  { destruct neg; [done|]. rewrite app_empty. unfold sign. by rewrite Hm, Hp. }
  unfold strtod. rewrite Hsign, (digits_all _ _ _ Hall).
  cbn [String.length Nat.add Nat.eqb exponent]. reflexivity.
Qed.

Lemma lots_of_decimal (neg : bool) (d : Z) :
  0 ≤ d ≤ 2 ^ 53 →
  lots_of (of_decimal neg d 0) = Some ((if neg then - d else d) ÷ 1000).
Proof.
  intros Hd. unfold of_decimal. cbn [Z.leb Z.compare Z.pow]. rewrite Z.mul_1_r.
  destruct d as [|m|m]; [by destruct neg| |lia].
  destruct neg.
  - apply (lots_of_integer (Z.neg m)). lia.
  - apply (lots_of_integer (Z.pos m)). lia.
Qed.

Lemma shares_to_lots_text (neg : bool) (body : string) :
  all_chars digit_or_comma body = true →
  all_chars (λ c, Ascii.eqb c ",") body = false →
  written 0 body ≤ 2 ^ 53 →
  shares_to_lots (VStr ((if neg then "-" else EmptyString) +:+ body))
  = (if neg then - written 0 body else written 0 body) ÷ 1000.
Proof.
  intros Hbody Hdigit Hz.
  destruct (replace_commas body Hbody) as (Hds & Hw & Hne).
  specialize (Hne Hdigit).
  assert (replace "," EmptyString ((if neg then "-" else EmptyString) +:+ body)
          = (if neg then "-" else EmptyString) +:+ replace "," EmptyString body) as Hrep.
  { destruct neg; [|by rewrite !app_empty].
    change ("-" +:+ body) with (String "-" body). by rewrite replace_comma_cons. }
  unfold shares_to_lots.
  destruct (String.eqb_spec ((if neg then "-" else EmptyString) +:+ body) EmptyString)
    as [Hempty|_].
  { destruct neg; [done|]. rewrite app_empty in Hempty. by subst body. }
  rewrite Hrep, (float_of_digits neg _ Hds Hne), Hw.
  rewrite lots_of_decimal; [done|].
  split; [by apply written_nonneg|done].
Qed.

(** The decimal text of an integer is a text of digits after an optional
    sign minus, and the digits write the integer: [written] reads a text
    as the Standard Library does. *)
Lemma written_of_lu (d lu : Decimal.uint) :
  written (Z.of_N (DecimalPos.Unsigned.of_lu lu))
          (DecimalString.NilEmpty.string_of_uint d)
  = Z.of_N (DecimalPos.Unsigned.of_lu (Decimal.revapp d lu)).
Proof.
  revert lu. induction d; intros lu; simpl; [done|..];
    rewrite <- IHd; f_equal; cbn [DecimalPos.Unsigned.of_lu];
    rewrite ?N2Z.inj_add, N2Z.inj_mul;
    generalize (Z.of_N (DecimalPos.Unsigned.of_lu lu)); intros v;
    vm_compute (digit_value _); simpl Z.of_N; lia.
Qed.

Lemma digits_of_uint (d : Decimal.uint) :
  all_chars is_digit (DecimalString.NilEmpty.string_of_uint d) = true.
Proof. induction d; simpl; [done|..]; by rewrite IHd. Qed.

Lemma decimal_written (z : Z) :
  ∃ body,
    decimal z = (if z <? 0 then "-" else EmptyString) +:+ body
    ∧ all_chars is_digit body = true ∧ body ≠ EmptyString
    ∧ written 0 body = Z.abs z.
Proof.
  assert (∀ p,
            all_chars is_digit
              (DecimalString.NilEmpty.string_of_uint (Pos.to_uint p)) = true
            ∧ DecimalString.NilEmpty.string_of_uint (Pos.to_uint p) ≠ EmptyString
            ∧ written 0 (DecimalString.NilEmpty.string_of_uint (Pos.to_uint p))
              = Z.pos p) as Hpos.
  { intros p. split_and!.
    - apply digits_of_uint.
    - pose proof (DecimalPos.Unsigned.to_uint_nonnil p) as Hnil.
      by destruct (Pos.to_uint p).
    - change 0 with (Z.of_N (DecimalPos.Unsigned.of_lu Decimal.Nil)) at 1.
      rewrite (written_of_lu (Pos.to_uint p) Decimal.Nil).
      change (Decimal.revapp (Pos.to_uint p) Decimal.Nil)
        with (Decimal.rev (Pos.to_uint p)).
      by rewrite <- DecimalPos.Unsigned.of_uint_alt, DecimalPos.Unsigned.of_to. }
  destruct z as [|p|p].
  - by exists "0".
  - exists (DecimalString.NilEmpty.string_of_uint (Pos.to_uint p)).
    destruct (Hpos p) as (? & ? & ?). split_and!; try done.
    unfold decimal. simpl.
    pose proof (DecimalPos.Unsigned.to_uint_nonnil p) as Hnil.
    by destruct (Pos.to_uint p).
  - exists (DecimalString.NilEmpty.string_of_uint (Pos.to_uint p)).
    destruct (Hpos p) as (? & ? & ?). split_and!; try done.
    unfold decimal. simpl.
    pose proof (DecimalPos.Unsigned.to_uint_nonnil p) as Hnil.
    by destruct (Pos.to_uint p).
Qed.

Lemma shares_to_lots_decimal (z : Z) :
  Z.abs z ≤ 2 ^ 53 → shares_to_lots (VStr (decimal z)) = z ÷ 1000.
Proof.
  intros Hz. destruct (decimal_written z) as (body & -> & Hd & Hne & Hw).
  rewrite shares_to_lots_text.
  - rewrite Hw. f_equal. destruct (Z.ltb_spec z 0); lia.
  - revert Hd. apply all_chars_impl. intros c Hc.
    unfold digit_or_comma. by rewrite Hc.
  - destruct body as [|c body]; [done|]. simpl in *.
    apply andb_prop in Hd as [Hc _].
    destruct (digit_facts c Hc) as (-> & _). done.
  - lia.
Qed.

(** Python's answers on some texts: the double of a text with an
    underscore, a fraction and an exponent (-150025.0), and the texts that
    are no number. *)
Lemma float_of_str_examples :
  float_of_str " -1_500.25e2 " = Some (S754_finite true 5154819748659200 (-35))
  ∧ float_of_str "0.1" = Some (S754_finite false 7205759403792794 (-56))
  ∧ float_of_str "9007199254740993" = Some (S754_finite false 4503599627370496 1)
  ∧ float_of_str "1e400" = Some (S754_infinity false)
  ∧ float_of_str "-Infinity" = Some (S754_infinity true)
  ∧ float_of_str "NaN" = Some S754_nan
  ∧ float_of_str "1__0" = None ∧ float_of_str "1_" = None
  ∧ float_of_str "1e" = None ∧ float_of_str "." = None
  ∧ float_of_str "1,500" = None ∧ float_of_str "1 2" = None
  ∧ float_of_str EmptyString = None.
Proof. vm_compute. done. Qed.

(** What is no number, is missing or overflows gives 0 lots. *)
Lemma shares_to_lots_zero :
  shares_to_lots (VStr EmptyString) = 0
  ∧ shares_to_lots (VStr "n/a") = 0
  ∧ shares_to_lots (VFloat S754_nan) = 0
  ∧ shares_to_lots (VFloat (S754_infinity false)) = 0
  ∧ shares_to_lots (VStr "1e400") = 0
  ∧ shares_to_lots (VInt (10 ^ 400)) = 0
  ∧ shares_to_lots (VStr " 1,234,567 ") = 1234.
Proof. vm_compute. done. Qed.

(** C3 (amended).  An integer count of magnitude up to 2^53, which a
    double holds exactly, is converted to the quotient by 1000 cut towards
    zero, whether it comes as an integer, as a double, in the frame column
    of [process_shares_files], as its decimal text, or as any text of
    digits and commas after an optional sign minus: this is the floor for
    a count that is not negative, one more than the floor for a negative
    count that is no multiple of 1000, and 0 for every count of magnitude
    under 1000. *)
Theorem shares_to_lots_truncates (z : Z) :
  Z.abs z ≤ 2 ^ 53 →
  (shares_to_lots (VInt z) = z ÷ 1000
   ∧ shares_to_lots (VFloat (of_Z z)) = z ÷ 1000
   ∧ lots_cell (Int z) = Some (z ÷ 1000)
   ∧ lots_cell (Float (of_Z z)) = Some (z ÷ 1000)
   ∧ ∀ code name,
       load_frame None [RawRow code name (Int z)]
       = Some [Row (normalize_stock_code code) name (z ÷ 1000)])
  ∧ shares_to_lots (VStr (decimal z)) = z ÷ 1000
  ∧ (∀ (neg : bool) (body : string),
       all_chars digit_or_comma body = true →
       all_chars (λ c, Ascii.eqb c ",") body = false →
       (if neg then - written 0 body else written 0 body) = z →
       shares_to_lots (VStr ((if neg then "-" else EmptyString) +:+ body))
       = z ÷ 1000)
  ∧ (0 ≤ z → shares_to_lots (VInt z) = z / 1000)
  ∧ (z < 0 → z mod 1000 ≠ 0 → shares_to_lots (VInt z) = z / 1000 + 1)
  ∧ (Z.abs z < 1000 → shares_to_lots (VInt z) = 0).
Proof.
  intros Hz. rewrite (shares_to_lots_int z Hz). split_and!.
  - done.
  - by apply shares_to_lots_float.
  - apply lots_cell_integer; auto.
  - apply lots_cell_integer; auto.
  - intros code name. unfold load_frame.
    cbn [fmap list_fmap mapM fst snd raw_name raw_shares].
    rewrite (lots_cell_integer (Int z) z) by auto. reflexivity.
  - by apply shares_to_lots_decimal.
  - intros neg body Hbody Hdigit Hw. rewrite <- Hw.
    apply shares_to_lots_text; [done..|].
    pose proof (written_nonneg body 0 ltac:(done)). destruct neg; lia.
  - apply quot_floor_nonneg.
  - apply quot_floor_neg.
  - apply quot_small.
Qed.

Lemma shares_to_lots_truncates_witness :
  shares_to_lots (VInt (-2500)) = -2500 / 1000 + 1
  ∧ shares_to_lots (VStr "-2,500") = -2500 ÷ 1000
  ∧ lots_cell (Int (-2500)) = Some (-2500 ÷ 1000).
Proof.
  assert (Z.abs (-2500) ≤ 2 ^ 53) as Hz by (by vm_compute).
  destruct (shares_to_lots_truncates (-2500) Hz)
    as ((_ & _ & Hcell & _ & _) & _ & Htext & _ & Hneg & _).
  split_and!.
  - apply Hneg; [done|]. by vm_compute.
  - by apply (Htext true "2,500").
  - exact Hcell.
Defined.

(** C3, as stated, fails on a negative count: -1500 shares are -1 lot,
    and the floor of -1500/1000 is -2.  It fails on a count that no double
    holds, too: 17592186044415999 shares are rounded to 17592186044416000
    and give one lot more than the quotient, and of 10^30 shares the
    frame column keeps the least int64. *)
Lemma shares_to_lots_not_floor :
  (shares_to_lots (VInt (-1500)) = -1
   ∧ shares_to_lots (VInt (-1500)) ≠ -1500 / 1000
   ∧ lots_cell (Int (-1500)) = Some (-1))
  ∧ (shares_to_lots (VInt 17592186044415999) = 17592186044416
     ∧ 17592186044415999 / 1000 = 17592186044415
     ∧ 17592186044415999 ÷ 1000 = 17592186044415)
  ∧ lots_cell (Int (10 ^ 30)) = Some (- 2 ^ 63).
Proof. vm_compute. repeat split; discriminate. Qed.

End Lots.

(** ** The aggregate reducer *)

Module Reducer.

Lemma dom_dates_by_stock_from (tracker : list entry) (m : gmap string (list string)) :
  dom (foldl (λ m item,
                <[e_code item := default [] (m !! e_code item) ++ [e_date item]]> m)
             m tracker)
  = dom m ∪ list_to_set (e_code <$> tracker).
Proof.
  revert m. induction tracker as [|item tracker IH]; intros m; simpl.
  - set_solver.
  - rewrite IH, dom_insert_L. set_solver.
Qed.

(** The keys of [buy_dates_by_stock] are the codes of the tracker. *)
Lemma dom_dates_by_stock (tracker : list entry) :
  dom (dates_by_stock tracker) = list_to_set (e_code <$> tracker).
Proof. unfold dates_by_stock. rewrite dom_dates_by_stock_from. set_solver. Qed.

(** The set of codes on both sides does not depend on the selection. *)
Lemma both_stocks_set_trackers buy sell sectors threshold n a :
  aggregate_analysis buy sell sectors threshold n = Returns a →
  both_stocks_set a
  = list_to_set (e_code <$> buy) ∩ list_to_set (e_code <$> sell).
Proof.
  unfold aggregate_analysis.
  destruct (bool_decide (buy = []) || bool_decide (sell = [])) eqn:Hempty.
  - intros [= <-]. simpl.
    apply orb_prop in Hempty as [->%bool_decide_eq_true| ->%bool_decide_eq_true];
      set_solver.
  - rewrite <- !dom_dates_by_stock.
    destruct n as [n|]; [|destruct threshold as [t|]]; intros [= <-]; done.
Qed.

Lemma legacy_both_stocks_set unknown buy sell sectors threshold n :
  Legacy.both_stocks_set
    (Legacy.aggregate_analysis unknown buy sell sectors threshold n)
  = list_to_set (Legacy.c_code <$>
      Legacy.buy_stocks (Legacy.aggregate_analysis unknown buy sell sectors threshold n))
    ∩ list_to_set (Legacy.c_code <$>
      Legacy.sell_stocks (Legacy.aggregate_analysis unknown buy sell sectors threshold n)).
Proof.
  unfold Legacy.aggregate_analysis. cbn [Legacy.both_stocks_set Legacy.buy_stocks Legacy.sell_stocks].
  set (b := Legacy.leaderboard unknown buy sectors n).
  set (s := Legacy.leaderboard unknown sell sectors n).
  destruct b as [|rb b]; [set_solver|].
  destruct s as [|rs s]; [set_solver|]. done.
Qed.

(** C1 (amended).  In [stock_workflow.py] a code is reported on both sides
    exactly when an item of the buy tracker and an item of the sell tracker
    carry it, whatever the two leaderboards hold; in the older script it is
    reported exactly when it is on both leaderboards. *)
Theorem cross_listing_is_tracker_intersection :
  (∀ buy sell sectors threshold n a code,
     aggregate_analysis buy sell sectors threshold n = Returns a →
     code ∈ both_stocks_set a ↔ code ∈ e_code <$> buy ∧ code ∈ e_code <$> sell)
  ∧ (∀ unknown buy sell sectors threshold n code,
       let a := Legacy.aggregate_analysis unknown buy sell sectors threshold n in
       code ∈ Legacy.both_stocks_set a
       ↔ code ∈ Legacy.c_code <$> Legacy.buy_stocks a
         ∧ code ∈ Legacy.c_code <$> Legacy.sell_stocks a).
Proof.
  split.
  - intros buy sell sectors threshold n a code Ha.
    rewrite (both_stocks_set_trackers _ _ _ _ _ _ Ha). set_solver.
  - intros unknown buy sell sectors threshold n code a. subst a.
    rewrite legacy_both_stocks_set. set_solver.
Qed.

Lemma cross_listing_is_tracker_intersection_witness :
  "2330" ∈ both_stocks_set
             (Aggregate (Some [Leader "2330" "TSMC" 50 2 EmptyString true]) (Some [])
                {["2330"]}
                (Some [Detail "2330" "TSMC" EmptyString 1 "02" 100 1 "03" (-50) 50
                         [(OnSell, "03"); (OnBuy, "02")]]))
  ↔ "2330" ∈ e_code <$> [Entry "2330" "TSMC" "2024-01-02" 100]
    ∧ "2330" ∈ e_code <$> [Entry "2330" "TSMC" "2024-01-03" (-50)].
Proof.
  apply (proj1 cross_listing_is_tracker_intersection
           [Entry "2330" "TSMC" "2024-01-02" 100]
           [Entry "2330" "TSMC" "2024-01-03" (-50)] ∅ None (Some 100%Z)).
  vm_compute. reflexivity.
Defined.

(** C1, as stated, fails in [stock_workflow.py]: a code bought on one day
    and sold on another is reported on both sides, and with a positive sum
    it is on the buy leaderboard only. *)
Lemma cross_listing_not_leaderboard_intersection :
  match aggregate_analysis [Entry "2330" "TSMC" "2024-01-02" 100]
                           [Entry "2330" "TSMC" "2024-01-03" (-50)]
                           ∅ None (Some 100%Z) with
  | Returns a =>
      elements (both_stocks_set a) = ["2330"]
      ∧ (λ rows : list leader, l_code <$> rows) <$> buy_stocks a = Some ["2330"]
      ∧ (λ rows : list leader, l_code <$> rows) <$> sell_stocks a = Some []
  | Raises_TypeError => False
  end.
Proof. vm_compute. done. Qed.

(** C8 (amended).  When a number of rows is given, no call is rejected:
    the threshold is not read, and the result is the one of any other
    threshold, or of none. *)
Theorem top_n_overrides_threshold buy sell sectors (n : Z) :
  (∀ threshold threshold',
     aggregate_analysis buy sell sectors threshold (Some n)
     = aggregate_analysis buy sell sectors threshold' (Some n))
  ∧ (∀ threshold, ∃ a,
       aggregate_analysis buy sell sectors threshold (Some n) = Returns a).
Proof.
  split.
  - intros threshold threshold'. unfold aggregate_analysis.
    by destruct threshold, threshold'.
  - intros threshold. unfold aggregate_analysis.
    destruct (bool_decide (buy = []) || bool_decide (sell = [])); eauto.
Qed.

(** C8, as stated, fails: with a threshold of 10000 lots and 100 rows both
    given, the call returns, and the buy leaderboard holds a sum of 50. *)
Lemma conflicting_selection_not_rejected :
  match aggregate_analysis [Entry "2330" "TSMC" "2024-01-02" 100]
                           [Entry "2330" "TSMC" "2024-01-03" (-50)]
                           ∅ (Some 10000%Z) (Some 100%Z) with
  | Returns a =>
      (λ rows : list leader, (λ r, (l_code r, l_sum r)) <$> rows) <$> buy_stocks a
      = Some [("2330", 50%Z)]
  | Raises_TypeError => False
  end.
Proof. vm_compute. done. Qed.

(** C10.  With an empty buy tracker or an empty sell tracker the call
    returns no leaderboard for either side, the empty set and no table,
    whatever the other tracker holds. *)
Theorem aggregate_analysis_empty_tracker buy sell sectors threshold n :
  buy = [] ∨ sell = [] →
  aggregate_analysis buy sell sectors threshold n
  = Returns (Aggregate None None ∅ None).
Proof.
  intros H. unfold aggregate_analysis.
  assert (bool_decide (buy = []) || bool_decide (sell = []) = true) as ->; [|done].
  destruct H as [-> | ->]; [done|]. apply orb_true_r.
Qed.

Lemma aggregate_analysis_empty_tracker_witness :
  aggregate_analysis [Entry "2330" "TSMC" "2024-01-02" 100] [] ∅
                     (Some 10000%Z) None
  = Returns (Aggregate None None ∅ None).
Proof. apply aggregate_analysis_empty_tracker. right. reflexivity. Defined.

End Reducer.

(** ** Sorting and selection of rows *)

Module FrameFacts.
Import Frame.

(** The stable sort, for any test [le] that decides an order [R] of the
    rows and separates only rows of different keys. *)
Section Stable.
Context {A K : Type} `{!EqDecision K} (key : A → K).
Context (le : A → A → bool) (R : A → A → Prop).
Hypothesis le_true : ∀ x y, le x y = true → R x y.
Hypothesis le_false : ∀ x y, le x y = false → R y x ∧ key x ≠ key y.
Hypothesis R_trans : ∀ x y z, R x y → R y z → R x z.
Hypothesis R_antisym : ∀ x y, R x y → R y x → key x = key y.

Lemma insert_by_perm x l : insert_by le x l ≡ₚ x :: l.
Proof.
  induction l as [|y l IH]; simpl; [done|].
  destruct (le x y); [done|]. rewrite IH. apply Permutation_swap.
Qed.

Lemma stable_sort_perm l : stable_sort le l ≡ₚ l.
Proof.
  unfold stable_sort.
  induction l as [|x l IH]; simpl; [done|].
  rewrite insert_by_perm. by rewrite IH.
Qed.

Lemma insert_by_sorted x l :
  StronglySorted R l → StronglySorted R (insert_by le x l).
Proof.
  induction 1 as [|y l Hs IH Hy]; simpl.
  - repeat constructor.
  - destruct (le x y) eqn:Hxy.
    + apply le_true in Hxy. constructor; [by constructor|].
      constructor; [done|].
      eapply Forall_impl; [exact Hy|]. intros z Hz. by eapply R_trans.
    + apply le_false in Hxy as [Hyx _]. constructor; [done|].
      rewrite insert_by_perm. by constructor.
Qed.

Lemma stable_sort_sorted l : StronglySorted R (stable_sort le l).
Proof.
  unfold stable_sort.
  induction l as [|x l IH]; simpl; [constructor|]. by apply insert_by_sorted.
Qed.

(** The rows of one key keep their places among themselves. *)
Lemma insert_by_filter v x l :
  filter (λ y, key y = v) (insert_by le x l) = filter (λ y, key y = v) (x :: l).
Proof.
  induction l as [|y l IH]; simpl; [done|].
  destruct (le x y) eqn:Hxy; [done|].
  apply le_false in Hxy as [_ Hne].
  rewrite (filter_cons _ y (insert_by _ x l)), IH.
  rewrite (filter_cons _ x (y :: l)), (filter_cons _ y l), (filter_cons _ x l).
  repeat case_decide; congruence.
Qed.

Lemma stable_sort_filter v l :
  filter (λ y, key y = v) (stable_sort le l) = filter (λ y, key y = v) l.
Proof.
  unfold stable_sort.
  induction l as [|x l IH]; simpl; [done|].
  rewrite insert_by_filter, !filter_cons, IH. done.
Qed.



(** The rows kept and the rows dropped by a cut of a sorted frame. *)
Lemma sorted_take_drop n l x y :
  StronglySorted R l → x ∈ take n l → y ∈ drop n l → R x y.
Proof.
  intros Hs. revert n. induction Hs as [|z l Hs IH Hz]; intros n.
  - by rewrite take_nil; intros ?%elem_of_nil.
  - destruct n as [|n]; simpl; [by intros ?%elem_of_nil|].
    intros [->|Hx]%elem_of_cons Hy; [|by eapply IH].
    rewrite Forall_forall in Hz. apply Hz.
    eapply subseteq_drop, Hy.
Qed.



End Stable.

(** The order of a numeric column, upwards or downwards. *)
Section Order.
Context {A : Type} (key : A → Z) (asc : bool).

#[local] Abbreviation le := (if asc then ascending key else descending key).
#[local] Abbreviation R := (λ x y : A, in_order asc (key x) (key y)).

Lemma le_true x y : le x y = true → R x y.
Proof. unfold ascending, descending, in_order. destruct asc; lia. Qed.

Lemma le_false x y : le x y = false → R y x ∧ key x ≠ key y.
Proof. unfold ascending, descending, in_order. destruct asc; lia. Qed.

Lemma in_order_trans x y z : R x y → R y z → R x z.
Proof. unfold in_order. destruct asc; lia. Qed.


Lemma sort_values_perm l : sort_values key asc l ≡ₚ l.
Proof. apply stable_sort_perm. Qed.

Lemma sort_values_sorted l : StronglySorted R (sort_values key asc l).
Proof.
  apply (stable_sort_sorted key le R le_true le_false in_order_trans).
Qed.



End Order.

(** The order of the dates of a history, the latest first. *)
Section ByDate.

#[local] Abbreviation later := (λ x y : string * Z, String.leb y.1 x.1).
#[local] Abbreviation not_before := (λ x y : string * Z, String.le y.1 x.1).

Lemma later_true x y : later x y = true → not_before x y.
Proof. unfold String.le. by intros ->. Qed.

Lemma later_false x y : later x y = false → not_before y x ∧ x.1 ≠ y.1.
Proof.
  intros H. split.
  - unfold String.le. destruct (String.leb_total x.1 y.1) as [->| Hyx]; [done|].
    simpl in *. congruence.
  - intros Heq. simpl in H. rewrite Heq in H.
    pose proof (reflexivity (R := String.le) y.1) as Hr.
    unfold String.le in Hr. rewrite H in Hr. done.
Qed.

Lemma not_before_trans x y z : not_before x y → not_before y z → not_before x z.
Proof. intros Hxy Hyz. exact (transitivity (R := String.le) Hyz Hxy). Qed.

Lemma not_before_antisym x y : not_before x y → not_before y x → x.1 = y.1.
Proof. intros Hxy Hyx. exact (anti_symm String.le _ _ Hyx Hxy). Qed.

Lemma sort_by_date_desc_perm l : sort_by_date_desc l ≡ₚ l.
Proof. apply stable_sort_perm. Qed.

Lemma sort_by_date_desc_sorted l : StronglySorted not_before (sort_by_date_desc l).
Proof.
  apply (stable_sort_sorted fst later not_before later_true later_false
           not_before_trans).
Qed.

Lemma sort_by_date_desc_filter d l :
  filter (λ e, e.1 = d) (sort_by_date_desc l) = filter (λ e, e.1 = d) l.
Proof. apply (stable_sort_filter fst later not_before later_false). Qed.

End ByDate.

End FrameFacts.

(** ** The daily rank extractor *)

Module RankExtractor.
Import Frame FrameFacts.

Lemma nlargest_cut {A} n (key : A → Z) l :
  nlargest n key l = take (Z.to_nat n) (sort_values key false l).
Proof. reflexivity. Qed.

Lemma nsmallest_cut {A} n (key : A → Z) l :
  nsmallest n key l = take (Z.to_nat n) (sort_values key true l).
Proof. reflexivity. Qed.

Section Cut.
Context {A : Type} (key : A → Z) (asc : bool) (n : nat) (l : list A).


Lemma cut_selects :
  ∃ rest, take n (sort_values key asc l) ++ rest ≡ₚ l
          ∧ ∀ x y, x ∈ take n (sort_values key asc l) → y ∈ rest →
                   in_order asc (key x) (key y).
Proof.
  exists (drop n (sort_values key asc l)). split.
  - rewrite take_drop. apply sort_values_perm.
  - intros x y.
    apply (sorted_take_drop (λ x y, in_order asc (key x) (key y))).
    apply sort_values_sorted.
Qed.


Lemma cut_length : (length (take n (sort_values key asc l)) ≤ n)%nat.
Proof. rewrite length_take. lia. Qed.

End Cut.


Lemma NoDup_fmap_filter {A B} (f : A → B) (P : A → Prop) `{!∀ x, Decision (P x)} l :
  NoDup (f <$> l) → NoDup (f <$> filter P l).
Proof.
  intros Hnd. eapply sublist_NoDup; [exact Hnd|].
  apply fmap_sublist, sublist_filter.
Qed.

Lemma cut_length_min {A} (key : A → Z) (asc : bool) (n : nat) (l : list A) :
  length (take n (sort_values key asc l)) = (n `min` length l)%nat.
Proof. by rewrite length_take, sort_values_perm. Qed.





End RankExtractor.

(** ** The statistics engine *)

Module Statistics.
Import Frame FrameFacts.

#[local] Open Scope R_scope.

Lemma Rsum_constant (c : R) (xs : list R) :
  Forall (λ x, x = c) xs → Rsum xs = INR (length xs) * c.
Proof.
  induction 1 as [|x xs -> _ IH].
  - simpl. lra.
  - change (Rsum (c :: xs)) with (c + Rsum xs). rewrite IH.
    change (length (c :: xs)) with (S (length xs)). rewrite S_INR. lra.
Qed.

Lemma Rsum_zero {A} (f : A → R) (xs : list A) :
  Forall (λ x, f x = 0) xs → Rsum (f <$> xs) = 0.
Proof.
  induction 1 as [|x xs Hx _ IH]; [done|].
  change (Rsum (f <$> x :: xs)) with (f x + Rsum (f <$> xs)). lra.
Qed.

Lemma np_mean_constant (c : Z) (xs : list Z) :
  xs ≠ [] → Forall (λ x, x = c) xs → np_mean xs = IZR c.
Proof.
  intros Hne Hc. unfold np_mean.
  rewrite (Rsum_constant (IZR c)), length_fmap.
  - field. destruct xs; [done|]. apply not_0_INR. done.
  - apply Forall_fmap. eapply Forall_impl; [exact Hc|]. by intros x ->.
Qed.

(** The deviation of a constant list is exactly 0. *)
Lemma np_std_constant (c : Z) (xs : list Z) :
  Forall (λ x, x = c) xs → np_std xs = 0.
Proof.
  intros Hc. unfold np_std.
  rewrite Rsum_zero.
  - unfold Rdiv. rewrite Rmult_0_l. apply sqrt_0.
  - destruct xs as [|x xs]; [constructor|].
    rewrite (np_mean_constant c) by done.
    eapply Forall_impl; [exact Hc|]. intros y ->. lra.
Qed.

#[local] Close Scope R_scope.

Lemma length_sort_by_date_desc dv : length (sort_by_date_desc dv) = length dv.
Proof. by rewrite sort_by_date_desc_perm. Qed.

Lemma length_window dv :
  length (snd <$> take 60 (drop 1 (sort_by_date_desc dv)))
  = (60 `min` (length dv - 1))%nat.
Proof.
  by rewrite length_fmap, length_take, length_drop, length_sort_by_date_desc.
Qed.

(** The two tests of the loop amount to one: thirty entries after the
    latest. *)
Lemma stock_entry_unfold sigma dv :
  stock_entry sigma dv =
  if decide (length dv - 1 < 30)%nat then None
  else
    let sorted_values := sort_by_date_desc dv in
    let latest := match sorted_values with v :: _ => v.2 | [] => 0%Z end in
    let historical_values := snd <$> take 60 (drop 1 sorted_values) in
    let z := if Rlt_dec 0 (np_std historical_values)
             then np_abs (np_divide (IZR latest - np_mean historical_values)
                                    (np_std historical_values))
             else Finite 0 in
    Some (Statistics (np_mean historical_values) (np_std historical_values)
            latest z (np_ge z sigma)).
Proof.
  unfold stock_entry. rewrite length_window.
  case_decide as Hlen.
  - destruct (Nat.leb_spec 30 (length dv)); [|done].
    destruct (Nat.leb_spec 30 (60 `min` (length dv - 1))); [lia|done].
  - destruct (Nat.leb_spec 30 (length dv)); [|lia].
    destruct (Nat.leb_spec 30 (60 `min` (length dv - 1))); [done|lia].
Qed.

(** C5.  A security's entries are sorted by date, the latest first; the
    value of the first is the latest value, and the mean and the deviation
    are those of the values of the next entries, up to sixty of them.  A
    security with fewer than thirty entries after the latest has no entry
    in the result; the function is total, so nothing is raised. *)
Theorem statistics_over_trailing_window
    (hist : gmap string (list (string * Z))) (sigma : R) (code : string) :
  match hist !! code with
  | None => calculate_stock_statistics hist sigma !! code = None
  | Some date_values =>
      if decide (length date_values - 1 < 30)%nat
      then calculate_stock_statistics hist sigma !! code = None
      else ∃ latest window older st,
          calculate_stock_statistics hist sigma !! code = Some st
          ∧ latest :: window ++ older ≡ₚ date_values
          ∧ StronglySorted (λ x y, String.le y.1 x.1) (latest :: window ++ older)
          ∧ (∀ d, filter (λ e, e.1 = d) (latest :: window ++ older)
                  = filter (λ e, e.1 = d) date_values)
          ∧ length window = (60 `min` (length date_values - 1))%nat
          ∧ latest_value st = latest.2
          ∧ mean_value st = np_mean (snd <$> window)
          ∧ std_value st = np_std (snd <$> window)
  end.
Proof.
  unfold calculate_stock_statistics. rewrite lookup_omap.
  destruct (hist !! code) as [dv|]; [|done].
  change (Some dv ≫= stock_entry sigma) with (stock_entry sigma dv).
  rewrite stock_entry_unfold. case_decide as Hlen; [done|].
  pose proof (sort_by_date_desc_perm dv) as Hperm.
  pose proof (sort_by_date_desc_sorted dv) as Hsorted.
  pose proof (λ d, sort_by_date_desc_filter d dv) as Hstable.
  pose proof (length_sort_by_date_desc dv) as Hl.
  destruct (sort_by_date_desc dv) as [|latest tl]; [simpl in Hl; lia|].
  exists latest, (take 60 tl), (drop 60 tl). eexists. split; [reflexivity|].
  rewrite take_drop.
  split_and!; [exact Hperm|exact Hsorted|exact Hstable| |reflexivity..].
  rewrite length_take. simpl in Hl. lia.
Qed.

(** An entry whose window holds one value only. *)
Lemma constant_window_entry sigma dv c :
  (31 ≤ length dv)%nat →
  Forall (λ v, v = c) (snd <$> take 60 (drop 1 (sort_by_date_desc dv))) →
  ∃ latest,
    stock_entry sigma dv
    = Some (Statistics (IZR c) 0 latest (Finite 0) (np_ge (Finite 0) sigma)).
Proof.
  intros Hlen Hc. rewrite stock_entry_unfold.
  case_decide; [lia|]. cbv zeta.
  rewrite (np_std_constant c) by done.
  rewrite (np_mean_constant c); [|intros Hnil|done].
  - destruct (Rlt_dec 0 0) as [?|_]; [lra|]. eauto.
  - pose proof (length_window dv) as Hw. rewrite Hnil in Hw.
    change (0 = 60 `min` (length dv - 1))%nat in Hw. lia.
Qed.

(** The quotient by a zero deviation is no number. *)
Lemma np_divide_zero (x v : R) : np_abs (np_divide x 0) ≠ Finite v.
Proof.
  unfold np_divide. destruct (Req_dec_T 0 0) as [_|?]; [|done].
  by destruct (Req_dec_T x 0).
Qed.

Lemma np_ge_zero (sigma : R) : (0 < sigma)%R → np_ge (Finite 0) sigma = false.
Proof. intros Hs. simpl. destruct (Rle_dec sigma 0); [lra|done]. Qed.

(** C6.  The threshold of every configuration is positive.  With a
    deviation of exactly 0 the entry is written, nothing being raised; its
    z-score is the number 0, which the test of the deviation sets and no
    division, the quotient by a zero deviation being an infinity or the
    NaN; and the security is not flagged.  A window of one repeated value
    has a deviation of exactly 0. *)
Theorem zero_deviation_zero_score
    (hist : gmap string (list (string * Z))) (sigma : R) (code : string) :
  (0 < sigma)%R →
  (∀ st, calculate_stock_statistics hist sigma !! code = Some st →
         std_value st = 0%R →
         z_score st = Finite 0 ∧ anomaly st = false)
  ∧ (∀ date_values c,
       hist !! code = Some date_values → (31 ≤ length date_values)%nat →
       Forall (λ v, v = c)
              (snd <$> take 60 (drop 1 (sort_by_date_desc date_values))) →
       ∃ st, calculate_stock_statistics hist sigma !! code = Some st
             ∧ std_value st = 0%R
             ∧ z_score st = Finite 0 ∧ anomaly st = false)
  ∧ (∀ x v, np_abs (np_divide x 0) ≠ Finite v).
Proof.
  intros Hsigma.
  unfold calculate_stock_statistics. rewrite lookup_omap. split_and!.
  - intros st Hst Hstd.
    destruct (hist !! code) as [dv|]; [|done]. simpl in Hst.
    rewrite stock_entry_unfold in Hst. case_decide; [done|].
    cbv zeta in Hst. injection Hst as <-.
    cbn [std_value z_score anomaly] in *. rewrite Hstd.
    destruct (Rlt_dec 0 0) as [?|_]; [lra|]. split; [done|].
    by apply np_ge_zero.
  - intros dv c -> Hlen Hc. simpl.
    destruct (constant_window_entry sigma dv c Hlen Hc) as [latest ->].
    eexists. split; [done|]. cbn [std_value z_score anomaly].
    split_and!; [done..|]. by apply np_ge_zero.
  - apply np_divide_zero.
Qed.

Lemma zero_deviation_zero_score_witness :
  ∃ st, calculate_stock_statistics {["0056" := flat_history]} (5 / 2) !! "0056" = Some st
        ∧ std_value st = 0%R ∧ z_score st = Finite 0 ∧ anomaly st = false.
Proof.
  assert (0 < 5 / 2)%R as Hsigma by lra.
  destruct (zero_deviation_zero_score {["0056" := flat_history]} (5 / 2) "0056" Hsigma)
    as (_ & Hflat & _).
  apply (Hflat flat_history 5%Z).
  - apply lookup_singleton_eq.
  - vm_compute. lia.
  - vm_compute. repeat constructor.
Defined.

(** The hypothesis on the threshold is needed: at a threshold of 0 the
    z-score of 0 reaches the threshold and the security is flagged. *)
Lemma zero_threshold_flags_zero_score :
  ∃ st, calculate_stock_statistics {["0056" := flat_history]} 0 !! "0056" = Some st
        ∧ std_value st = 0%R ∧ z_score st = Finite 0 ∧ anomaly st = true.
Proof.
  unfold calculate_stock_statistics.
  rewrite lookup_omap, lookup_singleton_eq. simpl.
  destruct (constant_window_entry 0 flat_history 5%Z) as [latest ->].
  - vm_compute. lia.
  - vm_compute. repeat constructor.
  - eexists. split; [reflexivity|]. simpl. split_and!; [done..|].
    destruct (Rle_dec 0 0) as [_|?]; [done|lra].
Qed.

End Statistics.

(** ** The observable classifier *)

Module Classifier.
Import Frame FrameFacts.

Lemma sorted_reverse_perm xs : sorted_reverse xs ≡ₚ xs.
Proof. apply stable_sort_perm. Qed.

Lemma sorted_reverse_sorted xs :
  StronglySorted (λ x y, String.le y x) (sorted_reverse xs).
Proof.
  apply (stable_sort_sorted (λ x : string, x) (λ a b, String.leb b a)
           (λ x y, String.le y x)).
  - intros x y H. unfold String.le. by rewrite H.
  - intros x y H. split.
    + unfold String.le. destruct (String.leb_total x y) as [->|Hyx]; [done|].
      congruence.
    + intros ->. pose proof (reflexivity (R := String.le) y) as Hr.
      unfold String.le in Hr. rewrite H in Hr. done.
  - intros x y z Hxy Hyz. exact (transitivity (R := String.le) Hyz Hxy).
Qed.

Lemma elem_of_previous_stocks_from (daily : gmap string (gset string)) dates acc x :
  x ∈ foldl (λ acc date, acc ∪ default ∅ (daily !! date)) acc dates
  ↔ x ∈ acc ∨ ∃ d, d ∈ dates ∧ x ∈ default ∅ (daily !! d).
Proof.
  revert acc. induction dates as [|d dates IH]; intros acc; simpl.
  - split; [auto|]. intros [?|(d & Hd & _)]; [done|]. by apply elem_of_nil in Hd.
  - rewrite IH, elem_of_union. split.
    + intros [[?|?]|(d' & Hd' & Hx)]; [by left|right..].
      * exists d. split; [left|done].
      * exists d'. split; [by right|done].
    + intros [?|(d' & Hd' & Hx)]; [by left; left|].
      apply elem_of_cons in Hd' as [->|Hd']; [by left; right|].
      right. by exists d'.
Qed.

(** A code is in the union of the earlier days when one of them holds it. *)
Lemma elem_of_previous_stocks (daily : gmap string (gset string)) dates x :
  x ∈ previous_stocks daily dates
  ↔ ∃ d, d ∈ dates ∧ x ∈ default ∅ (daily !! d).
Proof.
  unfold previous_stocks. rewrite elem_of_previous_stocks_from. set_solver.
Qed.

Lemma not_elem_of_previous_stocks (daily : gmap string (gset string)) dates x :
  x ∉ previous_stocks daily dates
  ↔ ∀ d, d ∈ dates → x ∉ default ∅ (daily !! d).
Proof. rewrite elem_of_previous_stocks. naive_solver. Qed.

(** A code of the latest list is observable when it is flagged or was on
    the side on three of the earlier days: nothing else is asked. *)
Lemma observe_is_Some side persistent das (stats : gmap string statistics) dates code :
  is_Some (observe side persistent das stats dates code)
  ↔ (∃ st, stats !! code = Some st ∧ anomaly st = true)
    ∨ (3 ≤ count_days side das dates code)%nat.
Proof.
  unfold observe.
  destruct (Nat.leb_spec 3 (count_days side das dates code)) as [Hc|Hc].
  - split; [by right|]. intros _.
    destruct (stats !! code) as [st|]; [destruct (anomaly st)|]; simpl; eauto.
  - destruct (stats !! code) as [st|] eqn:Hst.
    + destruct (anomaly st) eqn:Ha; simpl.
      * split; [|eauto]. intros _. left. eauto.
      * split; [by intros [??]|]. intros [(st' & [= <-] & ?)|?]; [congruence|lia].
    + simpl. split; [by intros [??]|]. intros [(st' & ? & ?)|?]; [done|lia].
Qed.

Lemma lookup_observables side persistent das (stats : gmap string statistics)
    dates (stocks : gset string) code :
  observables side persistent das stats dates stocks !! code
  = if decide (code ∈ stocks) then observe side persistent das stats dates code
    else None.
Proof.
  unfold observables. rewrite map_lookup_imap, lookup_gset_to_gmap.
  case_guard; simpl; by try case_decide.
Qed.

Lemma elem_of_codes (df : list row) code :
  code ∈ codes df ↔ ∃ r, r ∈ df ∧ r_code r = code.
Proof.
  unfold codes. rewrite elem_of_list_to_set, list_elem_of_fmap. naive_solver.
Qed.

(** C2 (amended).  When the tables hold at least two days and the latest
    file can be read, the new-buy set holds exactly the codes of the latest
    day's set that none of the up to four days before holds.  The latest
    buy list is the list of the N1 rows of positive volume of the latest
    file with the largest volumes, or of all of them when they are fewer;
    and a code is in the observable-buy map exactly when that list holds it
    and it is flagged or was bought on three of those days, whether it is
    in the new-buy set or not.  The same holds on the sell side. *)
Theorem new_entries_and_observables
    (latest_file : list raw_row)
    (daily_buy daily_sell : gmap string (gset string))
    (daily_all : gmap string (gmap string Z)) (stats : gmap string statistics)
    (allowed : option (gset string)) (n_buy n_sell : Z)
    (latest : string) (previous : list string) (latest_df : list row) :
  sorted_reverse (elements (dom daily_buy)) = latest :: previous →
  previous ≠ [] →
  load_frame allowed latest_file = Some latest_df →
  let earlier := take 4 previous in
  let buy_top_n := nlargest n_buy r_lots (buy_rows latest_df) in
  let sell_top_n := nsmallest n_sell r_lots (sell_rows latest_df) in
  let bought := filter (λ r, (0 < r_lots r)%Z) latest_df in
  let sold := filter (λ r, (r_lots r < 0)%Z) latest_df in
  ∃ a,
    analyze_new_entries_and_observables latest_file daily_buy daily_sell
      daily_all stats allowed n_buy n_sell = Some a
    ∧ (latest :: previous ≡ₚ elements (dom daily_buy)
       ∧ StronglySorted (λ x y, String.le y x) (latest :: previous))
    ∧ (∀ code, code ∈ new_buy_stocks a
               ↔ code ∈ default ∅ (daily_buy !! latest)
                 ∧ ∀ d, d ∈ earlier → code ∉ default ∅ (daily_buy !! d))
    ∧ (∀ code, code ∈ new_sell_stocks a
               ↔ code ∈ default ∅ (daily_sell !! latest)
                 ∧ ∀ d, d ∈ earlier → code ∉ default ∅ (daily_sell !! d))
    ∧ (length buy_top_n = (Z.to_nat n_buy `min` length bought)%nat
       ∧ ∃ rest, buy_top_n ++ rest ≡ₚ bought
                 ∧ ∀ x y, x ∈ buy_top_n → y ∈ rest → (r_lots y ≤ r_lots x)%Z)
    ∧ (length sell_top_n = (Z.to_nat n_sell `min` length sold)%nat
       ∧ ∃ rest, sell_top_n ++ rest ≡ₚ sold
                 ∧ ∀ x y, x ∈ sell_top_n → y ∈ rest → (r_lots x ≤ r_lots y)%Z)
    ∧ (∀ side code d,
         on_side side daily_all code d = true
         ↔ ∃ day v, daily_all !! d = Some day ∧ day !! code = Some v
                    ∧ side v = true)
    ∧ (∀ code, code ∈ latest_buy_stocks_n a ↔ ∃ r, r ∈ buy_top_n ∧ r_code r = code)
    ∧ (∀ code, code ∈ latest_sell_stocks_n a ↔ ∃ r, r ∈ sell_top_n ∧ r_code r = code)
    ∧ (∀ code, is_Some (observable_buy_stocks a !! code)
               ↔ (∃ r, r ∈ buy_top_n ∧ r_code r = code)
                 ∧ ((∃ st, stats !! code = Some st ∧ anomaly st = true)
                    ∨ (3 ≤ length (filter (λ d, on_side (λ v, (0 <? v)%Z)
                                                  daily_all code d = true)
                                          earlier))%nat))
    ∧ (∀ code, is_Some (observable_sell_stocks a !! code)
               ↔ (∃ r, r ∈ sell_top_n ∧ r_code r = code)
                 ∧ ((∃ st, stats !! code = Some st ∧ anomaly st = true)
                    ∨ (3 ≤ length (filter (λ d, on_side (λ v, (v <? 0)%Z)
                                                  daily_all code d = true)
                                          earlier))%nat)).
Proof.
  intros Hdates Hprev Hload earlier buy_top_n sell_top_n bought sold.
  change bought with (buy_rows latest_df). change sold with (sell_rows latest_df).
  subst earlier buy_top_n sell_top_n.
  unfold analyze_new_entries_and_observables. rewrite Hdates, Hload.
  destruct previous as [|d1 previous]; [done|].
  eexists. split; [reflexivity|].
  cbn [new_buy_stocks new_sell_stocks observable_buy_stocks
       observable_sell_stocks latest_buy_stocks_n latest_sell_stocks_n].
  split_and!.
  - rewrite <- Hdates. apply sorted_reverse_perm.
  - rewrite <- Hdates. apply sorted_reverse_sorted.
  - intros code. by rewrite elem_of_difference, not_elem_of_previous_stocks.
  - intros code. by rewrite elem_of_difference, not_elem_of_previous_stocks.
  - rewrite RankExtractor.nlargest_cut. apply RankExtractor.cut_length_min.
  - rewrite RankExtractor.nlargest_cut. apply (RankExtractor.cut_selects r_lots false).
  - rewrite RankExtractor.nsmallest_cut. apply RankExtractor.cut_length_min.
  - rewrite RankExtractor.nsmallest_cut. apply (RankExtractor.cut_selects r_lots true).
  - intros side code d. unfold on_side.
    destruct (daily_all !! d) as [day|];
      [|split; [done|by intros (? & ? & ? & _)]].
    destruct (day !! code) as [v|] eqn:Hv.
    + split; [eauto|]. intros (day' & v' & [= <-] & Hv' & ?). congruence.
    + split; [done|]. intros (day' & v' & [= <-] & Hv' & _). congruence.
  - apply elem_of_codes.
  - apply elem_of_codes.
  - intros code. rewrite lookup_observables, <- elem_of_codes. case_decide as Hin.
    + rewrite observe_is_Some. naive_solver.
    + split; [by intros [??]|]. naive_solver.
  - intros code. rewrite lookup_observables, <- elem_of_codes. case_decide as Hin.
    + rewrite observe_is_Some. naive_solver.
    + split; [by intros [??]|]. naive_solver.
Qed.

Lemma new_entries_and_observables_witness :
  ∃ a,
    analyze_new_entries_and_observables busy_rows
      (daily_buy_stocks five_days_tables) (daily_sell_stocks five_days_tables)
      (daily_all_stocks five_days_tables) ∅ None 100 50 = Some a
    ∧ "0056" ∈ new_buy_stocks a
    ∧ is_Some (observable_buy_stocks a !! "0056").
Proof.
  assert (sorted_reverse (elements (dom (daily_buy_stocks five_days_tables)))
          = "2024-01-05" :: ["2024-01-04"; "2024-01-03"; "2024-01-02"; "2024-01-01"])
    as Hdates by (by vm_compute).
  assert (["2024-01-04"; "2024-01-03"; "2024-01-02"; "2024-01-01"] ≠ [])
    as Hprev by discriminate.
  assert (load_frame None busy_rows = Some busy_frame) as Hload by (by vm_compute).
  destruct (new_entries_and_observables busy_rows
              (daily_buy_stocks five_days_tables) (daily_sell_stocks five_days_tables)
              (daily_all_stocks five_days_tables) ∅ None 100 50
              "2024-01-05" ["2024-01-04"; "2024-01-03"; "2024-01-02"; "2024-01-01"]
              busy_frame Hdates Hprev Hload)
    as (a & Ha & _ & Hnew & _ & _ & _ & _ & _ & _ & Hobs & _).
  exists a. split; [exact Ha|]. split.
  - apply Hnew. split.
    + apply (bool_decide_unpack _). by vm_compute.
    + apply (Forall_forall (λ d, "0056" ∉ default ∅ (daily_buy_stocks five_days_tables !! d))).
      apply (bool_decide_unpack _). by vm_compute.
  - apply Hobs. split.
    + exists (Row "0056" "ETF" 900000). split; [|done].
      apply (bool_decide_unpack _). by vm_compute.
    + right. apply (bool_decide_unpack _). by vm_compute.
Defined.

(** C2, as stated, fails: on the fifth day of [five_days] the security 0056
    enters the first twenty, which none of the four days before holds, and
    it is in the new-buy set and in the observable-buy map, for its four
    earlier days of buying. *)
Lemma new_entry_also_observable :
  let a := analyze_new_entries_and_observables busy_rows
             (daily_buy_stocks five_days_tables) (daily_sell_stocks five_days_tables)
             (daily_all_stocks five_days_tables)
             (calculate_stock_statistics (all_historical_data five_days_tables) (5 / 2))
             None 100 50 in
  bool_decide ("0056" ∈ default ∅ (daily_buy_stocks five_days_tables !! "2024-01-05"))
    = true
  ∧ bool_decide ("0056" ∈ previous_stocks (daily_buy_stocks five_days_tables)
       ["2024-01-04"; "2024-01-03"; "2024-01-02"; "2024-01-01"]) = false
  ∧ (λ a, bool_decide ("0056" ∈ new_buy_stocks a)) <$> a = Some true
  ∧ (a ≫= λ a, ob_reasons <$> observable_buy_stocks a !! "0056")
    = Some [ConsecutiveBuy].
Proof. vm_compute. done. Qed.

End Classifier.

(** ** The history accumulator *)

Module Accumulator.

Section Rows.
Context (date : string) (allowed : option (gset string)).

(** The day's map does not depend on the history, nor the history on the
    day's map. *)
Lemma record_rows_day df m h h' :
  (foldl (record_row date allowed) (m, h) df).1
  = (foldl (record_row date allowed) (m, h') df).1.
Proof.
  revert m h h'. induction df as [|r df IH]; intros m h h'; [done|].
  simpl. unfold record_row at 2 4.
  destruct (is_allowed_stock _ allowed); simpl; apply IH.
Qed.

Lemma record_rows_history df m h code :
  default [] ((foldl (record_row date allowed) (m, h) df).2 !! code)
  = default [] (h !! code)
    ++ ((λ r, (date, r_lots r))
          <$> filter (λ r, normalize_stock_code (Str (r_code r)) = code
                           ∧ is_allowed_stock (normalize_stock_code (Str (r_code r)))
                                              allowed = true) df).
Proof.
  revert m h. induction df as [|r df IH]; intros m h.
  - simpl. by rewrite app_nil_r.
  - rewrite filter_cons. cbn [foldl].
    set (sc := normalize_stock_code (Str (r_code r))).
    assert (record_row date allowed (m, h) r
            = if is_allowed_stock sc allowed
              then (<[sc := r_lots r]> m,
                    <[sc := default [] (h !! sc) ++ [(date, r_lots r)]]> h)
              else (m, h)) as -> by reflexivity.
    destruct (is_allowed_stock sc allowed) eqn:Hal.
    + rewrite IH. destruct (decide (sc = code)) as [Heq|Hne].
      * rewrite decide_True by done. rewrite Heq, lookup_insert_eq.
        cbn [from_option]. unfold Datatypes.id.
        rewrite fmap_cons, <- app_assoc. done.
      * rewrite decide_False by naive_solver. by rewrite lookup_insert_ne.
    + rewrite decide_False by (intros [_ ?]; congruence). apply IH.
Qed.

End Rows.

Section Files.
Context (allowed : option (gset string)) (etf : gset string) (n_buy n_sell : Z).

(** The rankings leave the two tables of the accumulator as they are. *)
Lemma process_file_history first_five t f :
  all_historical_data (process_file allowed etf n_buy n_sell first_five t f)
  = match frame_of allowed f with
    | None => all_historical_data t
    | Some df =>
        (foldl (record_row (file_date f) allowed) (∅, all_historical_data t) df).2
    end.
Proof.
  unfold process_file. destruct (frame_of allowed f) as [df|]; [|done].
  case_bool_decide; [|done].
  unfold rank_etf, rank_sell, rank_buy.
  repeat (match goal with |- context [if ?b then _ else _] => destruct b end);
    reflexivity.
Qed.

Lemma process_file_daily_all first_five t f :
  daily_all_stocks (process_file allowed etf n_buy n_sell first_five t f)
  = record_day_map allowed (daily_all_stocks t) f.
Proof.
  unfold process_file, record_day_map, day_map.
  destruct (frame_of allowed f) as [df|]; [|done].
  assert (daily_all_stocks (record_day (file_date f) allowed df t)
          = <[file_date f :=
                (foldl (record_row (file_date f) allowed) (∅, ∅) df).1]>
              (daily_all_stocks t)) as Hday.
  { simpl. f_equal. apply record_rows_day. }
  case_bool_decide; [|done].
  rewrite <- Hday. unfold rank_etf, rank_sell, rank_buy.
  repeat (match goal with |- context [if ?b then _ else _] => destruct b end);
    reflexivity.
Qed.

Lemma files_history first_five t fs code :
  default [] (all_historical_data
                (foldl (process_file allowed etf n_buy n_sell first_five) t fs)
              !! code)
  = default [] (all_historical_data t !! code)
    ++ (fs ≫= eligible_entries allowed code).
Proof.
  revert t. induction fs as [|f fs IH]; intros t.
  - simpl. by rewrite app_nil_r.
  - simpl foldl. rewrite IH, process_file_history, bind_cons.
    unfold eligible_entries at 2.
    destruct (frame_of allowed f) as [df|]; [|done].
    by rewrite record_rows_history, <- app_assoc.
Qed.

Lemma files_daily_all first_five t fs :
  daily_all_stocks (foldl (process_file allowed etf n_buy n_sell first_five) t fs)
  = foldl (record_day_map allowed) (daily_all_stocks t) fs.
Proof.
  revert t. induction fs as [|f fs IH]; intros t; [done|].
  simpl. by rewrite IH, process_file_daily_all.
Qed.

(** A step of the day's maps undoes an earlier step of the same file. *)
Lemma record_day_map_absorbs f fs m :
  record_day_map allowed
    (foldl (record_day_map allowed) (record_day_map allowed m f) fs) f
  = record_day_map allowed (foldl (record_day_map allowed) m fs) f.
Proof.
  revert m. induction fs as [|g fs IH]; intros m; simpl.
  - unfold record_day_map. destruct (frame_of allowed f); [|done].
    by rewrite insert_insert_eq.
  - destruct (frame_of allowed f) as [df|] eqn:Hf;
      [|by unfold record_day_map; rewrite Hf].
    destruct (frame_of allowed g) as [df'|] eqn:Hg.
    + destruct (decide (file_date f = file_date g)) as [Heq|Hne].
      * assert (record_day_map allowed (record_day_map allowed m f) g
                = record_day_map allowed m g) as ->; [|done].
        unfold record_day_map. rewrite Hf, Hg, Heq. by rewrite insert_insert_eq.
      * assert (record_day_map allowed (record_day_map allowed m f) g
                = record_day_map allowed (record_day_map allowed m g) f) as ->.
        { unfold record_day_map. rewrite Hf, Hg. by apply insert_insert_ne. }
        apply IH.
    + assert (∀ x, record_day_map allowed x g = x) as Hid
        by (intros x; unfold record_day_map; by rewrite Hg).
      rewrite !Hid. apply IH.
Qed.

Lemma record_day_map_twice fs m :
  foldl (record_day_map allowed) (foldl (record_day_map allowed) m fs) fs
  = foldl (record_day_map allowed) m fs.
Proof.
  induction fs as [|f fs IH] using rev_ind; [done|].
  rewrite !foldl_app. simpl. rewrite record_day_map_absorbs. by rewrite IH.
Qed.

End Files.

(** C7 (amended).  The accumulator appends: a security's history holds one
    entry for each row recorded under its code, in the order of the files
    and of their rows, with no test for an entry of the same date.  The
    files fed twice give every history twice over; only the table of the
    days' maps, which is keyed by date and code, is the same as for the
    files fed once. *)
Theorem history_appends_every_row (files : list day_file)
    (allowed : option (gset string)) (etf : gset string) (n_buy n_sell : Z) :
  let ingest fs := process_shares_files fs allowed etf n_buy n_sell in
  (∀ code, default [] (all_historical_data (ingest files) !! code)
           = files ≫= eligible_entries allowed code)
  ∧ (∀ code, default [] (all_historical_data (ingest (files ++ files)) !! code)
             = default [] (all_historical_data (ingest files) !! code)
               ++ default [] (all_historical_data (ingest files) !! code))
  ∧ daily_all_stocks (ingest (files ++ files)) = daily_all_stocks (ingest files).
Proof.
  intros ingest. subst ingest. unfold process_shares_files. split_and!.
  - intros code. by rewrite files_history.
  - intros code. rewrite !files_history. simpl. by rewrite bind_app.
  - rewrite !files_daily_all, foldl_app. apply record_day_map_twice.
Qed.

(** C7, as stated, fails: a file fed twice leaves two entries of its date
    in the history, and so do two rows of one code in one file, where the
    first value is kept beside the last. *)
Lemma ingest_twice_duplicates :
  let row (v : Z) := RawRow (Str "2330") "TSMC" (Int v) in
  let day := DayFile "2024-01-02" (Some [row 5000%Z]) in
  let history fs :=
    all_historical_data (process_shares_files fs None ∅ 100 50) !! "2330" in
  history [day] = Some [("2024-01-02", 5%Z)]
  ∧ history [day; day] = Some [("2024-01-02", 5%Z); ("2024-01-02", 5%Z)]
  ∧ history [DayFile "2024-01-02" (Some [row 5000%Z; row 7000%Z])]
    = Some [("2024-01-02", 5%Z); ("2024-01-02", 7%Z)].
Proof. vm_compute. done. Qed.

End Accumulator.
